(** * rmw_zenoh_cpp: attachment helpers, router check and context lifecycle

    A shallow embedding of three translation units of [rmw_zenoh_cpp/src/detail]:

    - [attachment_helpers.cpp]  : [get_attachment], [get_gid_from_attachment],
                                  [get_int64_from_attachment];
    - [zenoh_router_check.cpp]  : [ZidToStr], [zenoh_router_check];
    - [rmw_context_impl_s.cpp]  : [graph_sub_data_handler],
                                  [Data::subscribe_to_ros_graph],
                                  [Data::shutdown], [Data::~Data].

    Pure code is embedded as functions.  Calls into zenoh-c, the graph cache,
    the guard condition and the error/log facilities are embedded as the
    calls of a small free monad whose answers come from an environment.
    The functions of [attachment_helpers.cpp] read memory through raw
    pointers, so they return a behaviour: a value with the text printed, or
    undefined behaviour. *)

From Stdlib Require Import ZArith Lia List Bool String Ascii.
From Stdlib Require Import Strings.Byte Numbers.DecimalString Numbers.DecimalZ
  Numbers.DecimalPos Numbers.DecimalFacts.
Import ListNotations.

Local Open Scope string_scope.
Local Open Scope list_scope.
Local Open Scope Z_scope.

(** ** C characters, C strings and the libc functions the sources call *)

Module libc.

(** The terminating NUL character. *)
Definition NUL : ascii := Ascii.zero.

Definition char_code (c : ascii) : Z := Z.of_N (N_of_ascii c).

(** A [char *] into a NUL terminated buffer is modelled by the characters
    stored from the pointer on; a read at the end of the model string reads
    the terminator. *)
Definition deref (p : string) (i : nat) : ascii :=
  match String.get i p with
  | Some c => c
  | None => NUL
  end.

(** [strcmp]: compares unsigned characters up to and including the first
    NUL of either argument. *)
Fixpoint strcmp (a b : string) : Z :=
  match a, b with
  | EmptyString, EmptyString => 0
  | EmptyString, String d _ => 0 - char_code d
  | String c _, EmptyString => char_code c - 0
  | String c a', String d b' =>
      if Ascii.eqb c d
      then (if Ascii.eqb c NUL then 0 else strcmp a' b')
      else char_code c - char_code d
  end.

(** The C string a pointer designates: the characters before the first NUL. *)
Fixpoint c_str (s : string) : string :=
  match s with
  | EmptyString => EmptyString
  | String c s' => if Ascii.eqb c NUL then EmptyString else String c (c_str s')
  end.

(** [memcpy dst src n] on buffers modelled as lists: the first [n] cells of
    [dst] are replaced by the first [n] cells of [src]. *)
Definition memcpy {A : Type} (dst src : list A) (n : nat) : list A :=
  firstn n src ++ skipn n dst.

(** [isspace] in the "C" locale: space, \t, \n, \v, \f, \r. *)
Definition isspace (c : ascii) : bool :=
  let n := char_code c in
  (n =? 32) || ((9 <=? n) && (n <=? 13)).

Definition isdigit (c : ascii) : bool :=
  let n := char_code c in
  (48 <=? n) && (n <=? 57).

Definition LONG_MAX : Z := 9223372036854775807.
Definition LONG_MIN : Z := -9223372036854775808.
Definition INT64_MAX : Z := 9223372036854775807.
Definition INT64_MIN : Z := -9223372036854775808.
Definition INT_MAX : Z := 2147483647.
Definition ERANGE : Z := 34.

(** What a call [strtol(nptr, &endptr, 10)] leaves behind: the returned
    number, the offset of [endptr] from [nptr], and [errno] (cleared by the
    caller before the call). *)
Record strtol_result : Type := mk_strtol
  { num : Z; endptr : nat; errno : Z }.

Fixpoint skip_space (s : string) : nat :=
  match s with
  | String c s' => if isspace c then S (skip_space s') else O
  | EmptyString => O
  end.

Fixpoint advance (n : nat) (s : string) : string :=
  match n, s with
  | O, _ => s
  | S n', String _ s' => advance n' s'
  | S _, EmptyString => EmptyString
  end.

(** The optional sign: whether it is a minus, and the characters it takes. *)
Definition sign (s : string) : bool * nat :=
  match s with
  | String c _ =>
      if Ascii.eqb c "-" then (true, 1%nat)
      else if Ascii.eqb c "+" then (false, 1%nat)
      else (false, O)
  | EmptyString => (false, O)
  end.

(** The digit loop: accumulates the magnitude in base 10 and counts the
    digits consumed. *)
Fixpoint digits (s : string) (acc : Z) : Z * nat :=
  match s with
  | String c s' =>
      if isdigit c
      then let '(v, n) := digits s' (acc * 10 + (char_code c - 48)) in (v, S n)
      else (acc, O)
  | EmptyString => (acc, O)
  end.

(** [strtol] in base 10 for a 64 bit [long] (LP64), after ISO C 7.22.1.4:
    optional white space, an optional sign, a non empty digit sequence.
    With no digits nothing is converted: 0 is returned and [endptr] is
    [nptr].  A value outside of [long] is clamped and [errno] is [ERANGE]. *)
Definition strtol (nptr : string) : strtol_result :=
  let ws := skip_space nptr in
  let s1 := advance ws nptr in
  let '(neg, sg) := sign s1 in
  let '(mag, nd) := digits (advance sg s1) 0 in
  match nd with
  | O => mk_strtol 0 O 0
  | S _ =>
      let v := if neg then - mag else mag in
      let e := (ws + sg + nd)%nat in
      if LONG_MAX <? v then mk_strtol LONG_MAX e ERANGE
      else if v <? LONG_MIN then mk_strtol LONG_MIN e ERANGE
      else mk_strtol v e 0
  end.

(** The canonical decimal text of an integer, as [%d] and [std::to_string]
    print it: a minus sign for negatives, no leading zeros, ["0"] for zero. *)
Definition decimal_text (n : Z) : string :=
  NilEmpty.string_of_int (Z.to_int n).

(** Two's complement wrap-around of a 32 bit [int]. *)
Definition int_wrap (z : Z) : Z :=
  (z + 2147483648) mod 4294967296 - 2147483648.

End libc.

Import libc.

(** ** attachment_helpers.cpp *)

Module attachment_helpers.

(** An opaque serialized payload ([z_owned_bytes_t]). *)
Definition z_bytes : Type := list byte.

(** [z_owned_string_t]: length delimited character data. *)
Definition z_owned_string_t : Type := string.
Definition z_string_data (s : z_owned_string_t) : string := s.
Definition z_string_len (s : z_owned_string_t) : nat := String.length s.

(** The attachment ([z_loaned_bytes_t]) as the sequence of items its
    iterator yields, each one split by [z_bytes_deserialize_into_pair] into
    a serialized key and a serialized value, in producer order. *)
Definition attachment : Type := list (z_bytes * z_bytes).

Definition z_bytes_is_empty (a : attachment) : bool :=
  match a with
  | [] => true
  | _ :: _ => false
  end.

(** Modelled from the spec: [RMW_GID_STORAGE_SIZE] is declared in
    rmw/types.h, which is not part of the sources at hand; the spec fixes
    the entity identity at 16 bytes. *)
Definition RMW_GID_STORAGE_SIZE : nat := 16.

(** What a call does: it returns a value, having written [stdout] to the
    standard output (one entry for each [printf], in order), or its
    behaviour is undefined, because it reads past the end of an object or
    uses an object that was never written. *)
Inductive behaviour (A : Type) : Type :=
| Returns (a : A) (stdout : list string)
| Undefined.

Arguments Returns {A} a stdout.
Arguments Undefined {A}.

Definition and_then {A B : Type} (m : behaviour A) (f : A -> behaviour B)
  : behaviour B :=
  match m with
  | Undefined => Undefined
  | Returns a out1 =>
      match f a with
      | Undefined => Undefined
      | Returns b out2 => Returns b (out1 ++ out2)
      end
  end.

Notation "x <<- m ;; f" := (and_then m (fun x => f))
  (at level 61, m at next level, right associativity).

(** The line feed that ends the formats of the [printf]s. *)
Definition LF : string := String "010" "".

(** [printf] of a text without conversions. *)
Definition printf (text : string) : behaviour unit := Returns tt [text].

(** The data of a [z_owned_string_t] is an object of [z_string_len] bytes:
    nothing says what follows it.  Reading it as a C string gives the
    characters before its first NUL; without a NUL among its bytes, the
    read runs past the end of the object. *)
Fixpoint c_string_at (data : string) : option string :=
  match data with
  | EmptyString => None
  | String c data' =>
      if Ascii.eqb c NUL then Some EmptyString
      else
        match c_string_at data' with
        | Some s => Some (String c s)
        | None => None
        end
  end.

(** [printf] of the format [before], [%s], [after] with a pointer to
    [data]. *)
Definition printf_s (before : string) (data : string) (after : string)
  : behaviour unit :=
  match c_string_at data with
  | Some s => Returns tt [(before ++ s ++ after)%string]
  | None => Undefined
  end.

(** [strcmp(p, b)] where [p] points to the object [data] and [b] is NUL
    terminated (the [c_str()] of a [std::string]): the characters are
    compared in order, up to the first difference or NUL; a comparison
    that is not decided within [data] reads past its end. *)
Fixpoint strcmp_at (data b : string) : behaviour Z :=
  match data, b with
  | EmptyString, _ => Undefined
  | String c _, EmptyString => Returns (char_code c - 0) []
  | String c data', String d b' =>
      if Ascii.eqb c d
      then (if Ascii.eqb c NUL then Returns 0 [] else strcmp_at data' b')
      else Returns (char_code c - char_code d) []
  end.

(** A local [z_owned_string_t index] that a callee fills in through a
    pointer: [None] as long as nothing was written to it.  [z_loan] and
    [z_drop(z_move(index))] read the object. *)
Definition z_loan (index : option z_owned_string_t) : behaviour z_owned_string_t :=
  match index with
  | Some s => Returns s []
  | None => Undefined
  end.

Definition z_drop (index : option z_owned_string_t) : behaviour unit :=
  match index with
  | Some _ => Returns tt []
  | None => Undefined
  end.

Section zenoh_c.

(** The two zenoh-c entry points whose code lives outside of this
    repository: the conversion of a payload into a string, and the validity
    test of an owned string. *)
Variable z_bytes_deserialize_into_string : z_bytes -> z_owned_string_t.
Variable z_string_check : z_owned_string_t -> bool.

(** The [while (z_bytes_iterator_next(&iter, &pair))] loop of
    [get_attachment].  The result is the value written into [val] when
    [found] was set, together with the items the iterator has not yielded
    when the loop is left.  The source hands [z_string_data(key_string)] to
    [printf] for a [%s] and to [strcmp], and the data of the value found to
    [printf] for a [%s], without a look at [z_string_len]. *)
Fixpoint get_attachment_loop (iter : attachment) (key : string)
  : behaviour (option z_owned_string_t * attachment) :=
  match iter with
  | [] => Returns (None, []) []
  | (key_, val_) :: iter' =>
      _ <<- printf ("2" ++ LF) ;;
      _ <<- printf ("3" ++ LF) ;;
      let key_string := z_bytes_deserialize_into_string key_ in
      _ <<- printf_s "" (z_string_data key_string) LF ;;
      c <<- strcmp_at (z_string_data key_string) key ;;
      if c =? 0
      then
        _ <<- printf ("4" ++ LF) ;;
        let val := z_bytes_deserialize_into_string val_ in
        _ <<- printf_s "5 Found " (z_string_data val) LF ;;
        Returns (Some val, iter') []
      else get_attachment_loop iter' key
  end.

(** [get_attachment]: the flag returned, and what the call wrote to [*val]:
    [None] when it returned without a write to it. *)
Definition get_attachment (a : attachment) (key : string)
  : behaviour (bool * option z_owned_string_t) :=
  if z_bytes_is_empty a
  then
    _ <<- printf ("1" ++ LF) ;;
    Returns (false, None) []
  else
    r <<- get_attachment_loop a key ;;
    match fst r with
    | None => Returns (false, None) []
    | Some val =>
        if negb (z_string_check val) then Returns (false, Some val) []
        else Returns (true, Some val) []
    end.

(** [get_gid_from_attachment]: the [gid] buffer is passed in and handed back
    next to the returned flag.  [index] is a local that only
    [get_attachment] writes. *)
Definition get_gid_from_attachment (a : attachment) (gid : list byte)
  : behaviour (bool * list byte) :=
  r <<- get_attachment a "source_gid" ;;
  let index := snd r in
  if negb (fst r)
  then
    _ <<- z_drop index ;;
    Returns (false, gid) []
  else
    s <<- z_loan index ;;
    let len := z_string_len s in
    if negb (len =? RMW_GID_STORAGE_SIZE)%nat then Returns (false, gid) []
    else
      let start := list_byte_of_string (z_string_data s) in
      let gid' := memcpy gid start len in
      _ <<- z_drop index ;;
      Returns (true, gid') [].

(** The local buffer [int64_str] after the [memcpy] of [len] characters and
    the store of the terminator at index [len]. *)
Definition int64_str (index : z_owned_string_t) : string :=
  (z_string_data index ++ String NUL EmptyString)%string.

Definition get_int64_from_attachment (a : attachment) (name : string)
  : behaviour Z :=
  if z_bytes_is_empty a then Returns (-1) []
  else
    r <<- get_attachment a name ;;
    let index := snd r in
    if negb (fst r)
    then
      _ <<- z_drop index ;;
      Returns (-1) []
    else
      s <<- z_loan index ;;
      let len := z_string_len s in
      if (len <? 1)%nat then Returns (-1) []
      else if (19 <? len)%nat then Returns (-1) []
      else
        let r := strtol (int64_str s) in
        if num r =? 0 then Returns (-1) []
        else if (endptr r =? 0)%nat then Returns (-1) []
        else if negb (Ascii.eqb (deref (int64_str s) (endptr r)) NUL) then Returns (-1) []
        else if negb (errno r =? 0) then Returns (-1) []
        else Returns (num r) [].

End zenoh_c.

End attachment_helpers.

(** ** Return codes shared by the units below *)

Module rmw.

(** [rmw_ret_t]: the two codes the sources return. *)
Inductive rmw_ret_t : Type := RMW_RET_OK | RMW_RET_ERROR.

(** [z_result_t] of zenoh-c: an integer, [Z_OK] is 0. *)
Definition z_result_t : Type := Z.
Definition Z_OK : z_result_t := 0.

Inductive severity : Type := LOG_INFO | LOG_WARN | LOG_ERROR.

(** One record written through the logging macros: severity, logger name
    and formatted message. *)
Definition log_record : Type := (severity * string * string)%type.

End rmw.

Import rmw.

(** ** zenoh_router_check.cpp *)

Module zenoh_router.

(** [z_id_t]: the field [uint8_t id[16]]. *)
Record z_id_t : Type := mk_zid { id : list byte }.

(** The array read [pid.id[i]]. *)
Definition id_at (pid : z_id_t) (i : nat) : byte := nth i (id pid) x00.

Definition hex_digit (d : N) : ascii :=
  deref "0123456789abcdef" (N.to_nat d).

(** [ss << std::hex << v]: the digits of [v] in base 16, lowercase, at least
    one digit and no leading zero. *)
Fixpoint hex_digits (fuel : nat) (v : N) (acc : string) : string :=
  match fuel with
  | O => acc
  | S fuel' =>
      let acc' := String (hex_digit (v mod 16)) acc in
      if (v / 16 =? 0)%N then acc' else hex_digits fuel' (v / 16)%N acc'
  end.

Definition put_hex (v : N) : string := hex_digits (S (N.size_nat v)) v "".

Fixpoint fill (n : nat) (c : ascii) (s : string) : string :=
  match n with
  | O => s
  | S n' => String c (fill n' c s)
  end.

(** [std::setfill(c) << std::setw(w)] applied to the next item [s]. *)
Definition setfill_setw (c : ascii) (w : nat) (s : string) : string :=
  fill (w - String.length s) c s.

(** First loop of [ZidToStr]: [len] after [for (int i = 0; i < 16; i++)]. *)
Definition ZidToStr_len (pid : z_id_t) : nat :=
  fold_left
    (fun len i => if Byte.eqb (id_at pid i) x00 then len else (i + 1)%nat)
    (seq 0 16) O.

(** Second loop of [ZidToStr]: the iterations [i - 1], ..., [0] of
    [for (int i = len - 1; i >= 0; --i)], appending to the stream [ss]. *)
Fixpoint ZidToStr_put (pid : z_id_t) (i : nat) (ss : string) : string :=
  match i with
  | O => ss
  | S i' =>
      ZidToStr_put pid i'
        (ss ++ setfill_setw "0" 2 (put_hex (Byte.to_N (id_at pid i'))))%string
  end.

Definition ZidToStr (pid : z_id_t) : string :=
  let len := ZidToStr_len pid in
  match len with
  | O => (EmptyString ++ EmptyString)%string
  | S _ => ZidToStr_put pid len EmptyString
  end.

(** The session as far as [z_info_routers_zid] reads it: the identities of
    the routers it is connected to, in the order in which they are handed
    to the closure. *)
Definition z_session_t : Type := list z_id_t.

(** The lambda [callback] of [zenoh_router_check]: [ctx] is the [int]
    behind the context pointer; the new value and the line logged are
    returned. *)
Definition callback (zid : z_id_t) (ctx : Z) : Z * list log_record :=
  let id_str := ZidToStr zid in
  (int_wrap (ctx + 1),
   [(LOG_INFO, "ZenouRouterCheck",
     "A Zenoh router connected to the session with id '" ++ id_str ++ "'")%string]).

(** [z_info_routers_zid]: calls the closure once per router, one call after
    the other. *)
Fixpoint z_info_routers_zid (session : z_session_t)
    (call : z_id_t -> Z -> Z * list log_record) (context : Z)
  : Z * list log_record :=
  match session with
  | [] => (context, [])
  | zid :: rest =>
      let '(context', l1) := call zid context in
      let '(context'', l2) := z_info_routers_zid rest call context' in
      (context'', l1 ++ l2)
  end.

Definition zenoh_router_check (session : z_session_t)
  : rmw_ret_t * list log_record :=
  let context := 0 in
  let '(context, l) := z_info_routers_zid session callback context in
  if context =? 0
  then (RMW_RET_ERROR,
        l ++ [(LOG_ERROR, "ZenouRouterCheck",
               "No Zenoh router connected to the session"%string)])
  else (RMW_RET_OK,
        l ++ [(LOG_INFO, "ZenouRouterCheck",
               "There are " ++ decimal_text context
               ++ " Zenoh routers connected to the session")%string]).

(** The value of the counter [*context] when [z_info_routers_zid] returns. *)
Definition reply_count (session : z_session_t) : Z :=
  fst (z_info_routers_zid session callback 0).

End zenoh_router.

(** ** rmw_context_impl_s.cpp *)

Module rmw_context_impl_s.

(** Owned zenoh-c objects: [Some h] is a live object, [None] the gravestone
    that [z_move] leaves behind. *)
Definition z_owned_session_t : Type := option nat.
Definition z_owned_subscriber_t : Type := option nat.
Definition z_owned_shm_provider_t : Type := option nat.

(** [z_move(x)]: the moved object and what is left in [x]. *)
Definition z_move {T : Type} (x : option T) : option T * option T := (x, None).

(** The members of [rmw_context_impl_s::Data].  [graph_cache_] and
    [graph_guard_condition_] are references to objects that live outside of
    the record; every member is read and written under [mutex_], so each
    operation below is one atomic step on the record. *)
Record Data : Type := mk_Data
  { enclave_ : string;
    session_ : z_owned_session_t;
    shm_provider_ : option z_owned_shm_provider_t;
    liveliness_str_ : string;
    graph_cache_ : nat;
    graph_subscriber_ : z_owned_subscriber_t;
    graph_guard_condition_ : nat;
    is_shutdown_ : bool;
    next_entity_id_ : Z;
    is_initialized_ : bool }.

Definition set_session (v : z_owned_session_t) (d : Data) : Data :=
  mk_Data (enclave_ d) v (shm_provider_ d) (liveliness_str_ d)
    (graph_cache_ d) (graph_subscriber_ d) (graph_guard_condition_ d)
    (is_shutdown_ d) (next_entity_id_ d) (is_initialized_ d).

Definition set_shm_provider (v : option z_owned_shm_provider_t) (d : Data) : Data :=
  mk_Data (enclave_ d) (session_ d) v (liveliness_str_ d)
    (graph_cache_ d) (graph_subscriber_ d) (graph_guard_condition_ d)
    (is_shutdown_ d) (next_entity_id_ d) (is_initialized_ d).

Definition set_graph_subscriber (v : z_owned_subscriber_t) (d : Data) : Data :=
  mk_Data (enclave_ d) (session_ d) (shm_provider_ d) (liveliness_str_ d)
    (graph_cache_ d) v (graph_guard_condition_ d)
    (is_shutdown_ d) (next_entity_id_ d) (is_initialized_ d).

Definition set_is_shutdown (v : bool) (d : Data) : Data :=
  mk_Data (enclave_ d) (session_ d) (shm_provider_ d) (liveliness_str_ d)
    (graph_cache_ d) (graph_subscriber_ d) (graph_guard_condition_ d)
    v (next_entity_id_ d) (is_initialized_ d).

Definition set_is_initialized (v : bool) (d : Data) : Data :=
  mk_Data (enclave_ d) (session_ d) (shm_provider_ d) (liveliness_str_ d)
    (graph_cache_ d) (graph_subscriber_ d) (graph_guard_condition_ d)
    (is_shutdown_ d) (next_entity_id_ d) v.

Inductive z_sample_kind_t : Type :=
| Z_SAMPLE_KIND_PUT
| Z_SAMPLE_KIND_DELETE
| Z_SAMPLE_KIND_other (k : Z).

(** What the handler reads of a [z_loaned_sample_t]. *)
Record z_loaned_sample_t : Type := mk_sample
  { z_sample_keyexpr : string; z_sample_kind : z_sample_kind_t }.

(** The calls that leave the translation unit, indexed by the type of their
    answer. *)
Inductive call : Type -> Type :=
| z_undeclare_subscriber (sub : z_owned_subscriber_t) : call z_result_t
| z_drop_shm_provider (p : z_owned_shm_provider_t) : call unit
| z_close (s : z_owned_session_t) : call z_result_t
| zc_liveliness_declare_subscriber
    (s : z_owned_session_t) (keyexpr : string) (history : bool)
  : call (z_result_t * z_owned_subscriber_t)
| GraphCache_parse_put (cache : nat) (str : string) : call unit
| GraphCache_parse_del (cache : nat) (str : string) : call unit
| rmw_trigger_guard_condition (gc : nat) : call rmw_ret_t
| RMW_SET_ERROR_MSG (msg : string) : call unit
| RMW_ZENOH_LOG (r : log_record) : call unit.

(** Programs over these calls. *)
Inductive action (A : Type) : Type :=
| Done (a : A)
| Call (R : Type) (c : call R) (k : R -> action A).

Arguments Done {A} a.
Arguments Call {A R} c k.

Fixpoint bind {A B : Type} (m : action A) (f : A -> action B) : action B :=
  match m with
  | Done a => f a
  | Call c k => Call c (fun r => bind (k r) f)
  end.

Definition perform {R : Type} (c : call R) : action R := Call c Done.

Notation "x <- m ;; f" := (bind m (fun x => f))
  (at level 61, m at next level, right associativity).

(** One call together with the answer it got. *)
Inductive event : Type :=
| Event (R : Type) (c : call R) (r : R).

(** The world outside: it answers a call knowing what happened before
    (latest event first). *)
Definition environment : Type := list event -> forall R : Type, call R -> R.

(** Running a program: its result and the events it caused, in order. *)
Fixpoint run {A : Type} (env : environment) (past : list event) (m : action A)
  : A * list event :=
  match m with
  | Done a => (a, [])
  | Call c k =>
      let r := env past _ c in
      let '(a, tr) := run env (Event _ c r :: past) (k r) in
      (a, Event _ c r :: tr)
  end.

(** [Data::Data]: the members after construction. *)
Definition Data_ctor (enclave : string) (session : z_owned_session_t)
    (shm_provider : option z_owned_shm_provider_t) (liveliness_str : string)
    (graph_cache : nat) (guard_condition : nat) : Data :=
  mk_Data enclave session shm_provider liveliness_str graph_cache None
    guard_condition false 0 false.

(** [graph_sub_data_handler(sample, data)]: [data] is [None] for a null
    pointer; the record behind the pointer is handed back. *)
Definition graph_sub_data_handler (sample : z_loaned_sample_t) (data : option Data)
  : action (option Data) :=
  let keystr := z_sample_keyexpr sample in
  match data with
  | None =>
      _ <- perform (RMW_ZENOH_LOG
             (LOG_ERROR, "rmw_zenoh_cpp", "[graph_sub_data_handler] Invalid data_ptr.")) ;;
      Done None
  | Some data_ptr =>
      if is_shutdown_ data_ptr then Done (Some data_ptr)
      else
        let str := keystr in
        let trigger :=
          rmw_ret <- perform (rmw_trigger_guard_condition
                                (graph_guard_condition_ data_ptr)) ;;
          match rmw_ret with
          | RMW_RET_OK => Done (Some data_ptr)
          | _ =>
              _ <- perform (RMW_ZENOH_LOG
                     (LOG_WARN, "rmw_zenoh_cpp",
                      "[graph_sub_data_handler] Unable to trigger graph guard condition.")) ;;
              Done (Some data_ptr)
          end in
        match z_sample_kind sample with
        | Z_SAMPLE_KIND_PUT =>
            _ <- perform (GraphCache_parse_put (graph_cache_ data_ptr) str) ;; trigger
        | Z_SAMPLE_KIND_DELETE =>
            _ <- perform (GraphCache_parse_del (graph_cache_ data_ptr) str) ;; trigger
        | Z_SAMPLE_KIND_other _ => Done (Some data_ptr)
        end
  end.

(** [Data::subscribe_to_ros_graph].  The scope exit [undeclare_z_sub] runs
    on the failure path only (it is cancelled on the other one). *)
Definition subscribe_to_ros_graph (d : Data) : action (rmw_ret_t * Data) :=
  if is_initialized_ d then Done (RMW_RET_OK, d)
  else
    res <- perform (zc_liveliness_declare_subscriber
                      (session_ d) (liveliness_str_ d) true) ;;
    let d := set_graph_subscriber (snd res) d in
    if negb (fst res =? Z_OK)
    then
      _ <- perform (RMW_SET_ERROR_MSG "unable to create zenoh subscription") ;;
      let '(sub, husk) := z_move (graph_subscriber_ d) in
      _ <- perform (z_undeclare_subscriber sub) ;;
      Done (RMW_RET_ERROR, set_graph_subscriber husk d)
    else Done (RMW_RET_OK, set_is_initialized true d).

(** [Data::shutdown]. *)
Definition shutdown (d : Data) : action (rmw_ret_t * Data) :=
  if is_shutdown_ d then Done (RMW_RET_OK, d)
  else
    let '(sub, husk) := z_move (graph_subscriber_ d) in
    _ <- perform (z_undeclare_subscriber sub) ;;
    let d := set_graph_subscriber husk d in
    d <- match shm_provider_ d with
         | Some p =>
             let '(p, husk) := z_move p in
             _ <- perform (z_drop_shm_provider p) ;;
             Done (set_shm_provider (Some husk) d)
         | None => Done d
         end ;;
    let '(s, husk) := z_move (session_ d) in
    r <- perform (z_close s) ;;
    let d := set_session husk d in
    if negb (r =? Z_OK)
    then
      _ <- perform (RMW_SET_ERROR_MSG "Error while closing zenoh session") ;;
      Done (RMW_RET_ERROR, d)
    else Done (RMW_RET_OK, set_is_shutdown true d).

(** [Data::~Data]: calls [shutdown] and drops its result; the record is what
    the members hold when they are destroyed. *)
Definition Data_dtor (d : Data) : action Data :=
  ret <- shutdown d ;;
  Done (snd ret).

(** Observers of a trace. *)
Definition is_undeclare (e : event) : bool :=
  match e with
  | Event _ (z_undeclare_subscriber _) _ => true
  | _ => false
  end.

Definition is_shm_drop (e : event) : bool :=
  match e with
  | Event _ (z_drop_shm_provider _) _ => true
  | _ => false
  end.

Definition is_close (e : event) : bool :=
  match e with
  | Event _ (z_close _) _ => true
  | _ => false
  end.

(** A [z_close] that did not answer [Z_OK]. *)
Definition is_failed_close (e : event) : bool :=
  match e with
  | Event _ c r =>
      match c in call R return R -> bool with
      | z_close _ => fun r => negb (r =? Z_OK)
      | _ => fun _ => false
      end r
  end.

Definition count (p : event -> bool) (tr : list event) : nat :=
  List.length (filter p tr).

End rmw_context_impl_s.

(** ** Notions of the specification, to compare the code with *)

Module spec.

Import attachment_helpers zenoh_router rmw_context_impl_s.

(** No NUL character occurs in the text. *)
Fixpoint nul_free (s : string) : bool :=
  match s with
  | EmptyString => true
  | String c s' => negb (Ascii.eqb c NUL) && nul_free s'
  end.

(** The key of a pair is the lookup key as far as C string comparison sees
    them: the same characters up to the first NUL. *)
Definition key_matches (k key : string) : Prop := c_str k = c_str key.

(** The scan passes over the pair: the data of its key holds a NUL, and the
    characters before it are not those of the lookup key. *)
Definition passed_over (des : z_bytes -> z_owned_string_t) (key : string)
    (p : z_bytes * z_bytes) : Prop :=
  exists t, c_string_at (des (fst p)) = Some t /\ t <> c_str key.

(** The scan stops at the pair: the data of its key holds a NUL, and the
    characters before it are those of the lookup key. *)
Definition stops_at (des : z_bytes -> z_owned_string_t) (key : string)
    (p : z_bytes * z_bytes) : Prop :=
  c_string_at (des (fst p)) = Some (c_str key).

(** What the scan prints for the pairs it passes over. *)
Definition passed_output (des : z_bytes -> z_owned_string_t)
    (pre : attachment) : list string :=
  flat_map
    (fun p =>
       [("2" ++ LF)%string; ("3" ++ LF)%string;
        (match c_string_at (des (fst p)) with
         | Some t => t
         | None => ""
         end ++ LF)%string])
    pre.

(** What the scan prints for the pair it stops at, the value of which is
    read as [tv]. *)
Definition found_output (key tv : string) : list string :=
  [("2" ++ LF)%string; ("3" ++ LF)%string; (c_str key ++ LF)%string;
   ("4" ++ LF)%string; ("5 Found " ++ tv ++ LF)%string].

(** The scan, whatever the attachment: it passes over pairs up to the end,
    or up to a pair at which it stops with a value that holds a NUL, or up
    to a pair at which a read runs past the end of a key or of a value. *)
Inductive scan (des : z_bytes -> z_owned_string_t) (key : string)
    (a : attachment)
  : behaviour (option z_owned_string_t * attachment) -> Prop :=
| scan_end :
    Forall (passed_over des key) a ->
    scan des key a (Returns (None, []) (passed_output des a))
| scan_found (pre post : attachment) (k v : z_bytes) (tv : string) :
    a = pre ++ (k, v) :: post ->
    Forall (passed_over des key) pre ->
    stops_at des key (k, v) ->
    c_string_at (des v) = Some tv ->
    scan des key a (Returns (Some (des v), post)
                  (passed_output des pre ++ found_output key tv))
| scan_past (pre post : attachment) (k v : z_bytes) :
    a = pre ++ (k, v) :: post ->
    Forall (passed_over des key) pre ->
    c_string_at (des k) = None
    \/ (stops_at des key (k, v) /\ c_string_at (des v) = None) ->
    scan des key a Undefined.

(** What [get_int64_from_attachment] makes of the string that the lookup
    has found. *)
Definition converted (s : z_owned_string_t) : Z :=
  let len := z_string_len s in
  if (len <? 1)%nat then -1
  else if (19 <? len)%nat then -1
  else
    let r := strtol (int64_str s) in
    if num r =? 0 then -1
    else if (endptr r =? 0)%nat then -1
    else if negb (Ascii.eqb (deref (int64_str s) (endptr r)) NUL) then -1
    else if negb (errno r =? 0) then -1
    else num r.

(** The text is a complete decimal literal of [n] for [strtol]: something
    was converted, nothing is left over, and the value is in range. *)
Definition parses_as (text : string) (n : Z) : Prop :=
  let r := strtol (int64_str text) in
  num r = n /\ endptr r <> O
  /\ deref (int64_str text) (endptr r) = NUL /\ errno r = 0.

(** The value the digit loop reaches on the digits [d], from [acc]. *)
Fixpoint uint_val (d : Decimal.uint) (acc : Z) : Z :=
  match d with
  | Decimal.Nil => acc
  | Decimal.D0 d' => uint_val d' (acc * 10 + 0)
  | Decimal.D1 d' => uint_val d' (acc * 10 + 1)
  | Decimal.D2 d' => uint_val d' (acc * 10 + 2)
  | Decimal.D3 d' => uint_val d' (acc * 10 + 3)
  | Decimal.D4 d' => uint_val d' (acc * 10 + 4)
  | Decimal.D5 d' => uint_val d' (acc * 10 + 5)
  | Decimal.D6 d' => uint_val d' (acc * 10 + 6)
  | Decimal.D7 d' => uint_val d' (acc * 10 + 7)
  | Decimal.D8 d' => uint_val d' (acc * 10 + 8)
  | Decimal.D9 d' => uint_val d' (acc * 10 + 9)
  end.

(** The bytes of an identity without the zero bytes at its high end (the
    identity is stored least significant byte first). *)
Fixpoint strip_trailing_zeros (l : list byte) : list byte :=
  match l with
  | [] => []
  | b :: l' =>
      match strip_trailing_zeros l' with
      | [] => if Byte.eqb b x00 then [] else [b]
      | r => b :: r
      end
  end.

(** A byte as two lowercase hexadecimal digits. *)
Definition two_hex_digits (b : byte) : string :=
  String (hex_digit (Byte.to_N b / 16)) (String (hex_digit (Byte.to_N b mod 16)) "").

(** Each byte as two digits, in the order of the list. *)
Definition render (l : list byte) : string :=
  fold_right String.append "" (map two_hex_digits l).

(** The rendering the specification describes: strip the zero bytes at the
    high end, then two digits per byte, most significant byte first. *)
Definition ZidToStr_spec (pid : z_id_t) : string :=
  render (rev (strip_trailing_zeros (id pid))).

(** A zenoh-c for examples: payloads are the bytes of their text, and the
    empty string is the invalid one. *)
Definition bytes_as_text : z_bytes -> z_owned_string_t := string_of_list_byte.
Definition nonempty_text (s : z_owned_string_t) : bool :=
  negb (String.eqb s "").

(** Keys and values for examples: a text with its own NUL after it, as a
    producer that writes C strings with their terminator sends them. *)
Definition terminated (s : string) : z_bytes :=
  list_byte_of_string (s ++ String NUL "").

(** An environment in which every call succeeds, and one in which
    [z_close] fails. *)
Definition all_ok : environment :=
  fun _ R c =>
    match c in call R return R with
    | z_undeclare_subscriber _ => Z_OK
    | z_drop_shm_provider _ => tt
    | z_close _ => Z_OK
    | zc_liveliness_declare_subscriber _ _ _ => (Z_OK, Some 7%nat)
    | GraphCache_parse_put _ _ => tt
    | GraphCache_parse_del _ _ => tt
    | rmw_trigger_guard_condition _ => RMW_RET_OK
    | RMW_SET_ERROR_MSG _ => tt
    | RMW_ZENOH_LOG _ => tt
    end.

Definition close_fails : environment :=
  fun past R c =>
    match c in call R return R -> R with
    | z_close _ => fun _ => -1
    | _ => fun r => r
    end (all_ok past R c).

(** A context as the constructor leaves it, after a subscription that
    succeeded, and after a shutdown that succeeded. *)
Definition fresh_Data : Data :=
  Data_ctor "/" (Some 1%nat) (Some (Some 2%nat)) "@ros2_lv/0/**" 3 4.

Definition subscribed_Data : Data :=
  snd (fst (run all_ok [] (subscribe_to_ros_graph fresh_Data))).

Definition closed_Data : Data :=
  snd (fst (run all_ok [] (shutdown subscribed_Data))).

End spec.

(** ** More of libc and of the public interface of the context *)

Module libc_more.

(** [strncmp]: as [strcmp], over at most [n] characters. *)
Fixpoint strncmp (a b : string) (n : nat) : Z :=
  match n with
  | O => 0
  | S n' =>
      match a, b with
      | EmptyString, EmptyString => 0
      | EmptyString, String d _ => 0 - char_code d
      | String c _, EmptyString => char_code c - 0
      | String c a', String d b' =>
          if Ascii.eqb c d
          then (if Ascii.eqb c NUL then 0 else strncmp a' b' n')
          else char_code c - char_code d
      end
  end.

(** Wrap-around of a 64 bit [size_t]. *)
Definition size_wrap (z : Z) : Z := z mod 18446744073709551616.

(** Every character of the text is white space for [isspace]. *)
Fixpoint all_space (s : string) : bool :=
  match s with
  | EmptyString => true
  | String c s' => isspace c && all_space s'
  end.

(** The text does not go on with a digit. *)
Definition no_digit_ahead (rest : string) : bool :=
  match rest with
  | EmptyString => true
  | String c _ => negb (isdigit c)
  end.

(** The three ways in which a number can start, and whether it is
    negated. *)
Inductive sign_text : string -> bool -> Prop :=
| sign_none : sign_text "" false
| sign_plus : sign_text "+" false
| sign_minus : sign_text "-" true.

(** What [strtol] returns for the value [v] read over [e] characters. *)
Definition clamp_long (v : Z) (e : nat) : strtol_result :=
  if LONG_MAX <? v then mk_strtol LONG_MAX e ERANGE
  else if v <? LONG_MIN then mk_strtol LONG_MIN e ERANGE
  else mk_strtol v e 0.

End libc_more.

Import libc_more.

(** Reading back the text of an identity. *)

Module zid_text.

Import zenoh_router.

Definition is_lower_hex (c : ascii) : bool :=
  let n := char_code c in
  ((48 <=? n) && (n <=? 57)) || ((97 <=? n) && (n <=? 102)).

(** The value of a lowercase hexadecimal digit. *)
Definition hex_value (c : ascii) : N :=
  let n := N_of_ascii c in
  if (n <=? 57)%N then (n - 48)%N else (n - 87)%N.

Definition byte_of_hex (h l : ascii) : byte :=
  match Byte.of_N (16 * hex_value h + hex_value l) with
  | Some b => b
  | None => x00
  end.

(** The bytes that a text of two digits per byte stands for, in the order
    of the text. *)
Fixpoint parse_hex_bytes (s : string) : list byte :=
  match s with
  | String h (String l s') => byte_of_hex h l :: parse_hex_bytes s'
  | _ => []
  end.

(** The 16 bytes of the identity that a text stands for: the text holds the
    most significant byte first, the bytes it leaves out are zero. *)
Definition zid_of_text (s : string) : list byte :=
  let kept := rev (parse_hex_bytes s) in
  kept ++ repeat x00 (16 - List.length kept).

(** The line logged for one reply. *)
Definition router_line (zid : z_id_t) : log_record :=
  (LOG_INFO, "ZenouRouterCheck",
   "A Zenoh router connected to the session with id '" ++ ZidToStr zid ++ "'")%string.

End zid_text.

Module rmw_context_impl_s_api.

Import rmw_context_impl_s.

Definition set_next_entity_id (v : Z) (d : Data) : Data :=
  mk_Data (enclave_ d) (session_ d) (shm_provider_ d) (liveliness_str_ d)
    (graph_cache_ d) (graph_subscriber_ d) (graph_guard_condition_ d)
    (is_shutdown_ d) v (is_initialized_ d).

(** The accessors of [rmw_context_impl_s]; [data_] is the record. *)
Definition enclave (data_ : Data) : string := enclave_ data_.
Definition session (data_ : Data) : z_owned_session_t := session_ data_.
Definition shm_provider (data_ : Data) : option z_owned_shm_provider_t :=
  shm_provider_ data_.
Definition graph_guard_condition (data_ : Data) : nat :=
  graph_guard_condition_ data_.
Definition graph_cache (data_ : Data) : nat := graph_cache_ data_.
Definition is_shutdown (data_ : Data) : bool := is_shutdown_ data_.

(** [get_next_entity_id]: [return data_->next_entity_id_++] on a [size_t]. *)
Definition get_next_entity_id (data_ : Data) : Z * Data :=
  (next_entity_id_ data_,
   set_next_entity_id (size_wrap (next_entity_id_ data_ + 1)) data_).

(** [n] calls of [get_next_entity_id], one after the other: the values
    returned, in order, and the record after the last call. *)
Fixpoint get_next_entity_ids (n : nat) (data_ : Data) : list Z * Data :=
  match n with
  | O => ([], data_)
  | S n' =>
      let '(i, data_) := get_next_entity_id data_ in
      let '(l, data_) := get_next_entity_ids n' data_ in
      (i :: l, data_)
  end.

Definition is_declare (e : event) : bool :=
  match e with
  | Event _ (zc_liveliness_declare_subscriber _ _ _) _ => true
  | _ => false
  end.

(** The event calls the transport: it declares or undeclares a
    subscription, drops the shared memory provider or closes a session. *)
Definition is_transport (e : event) : bool :=
  is_declare e || is_undeclare e || is_shm_drop e || is_close e.

(** The warning logged when the guard condition could not be triggered. *)
Definition trigger_warning (r : rmw_ret_t) : list event :=
  match r with
  | RMW_RET_OK => []
  | RMW_RET_ERROR =>
      [Event _ (RMW_ZENOH_LOG
                  (LOG_WARN, "rmw_zenoh_cpp",
                   "[graph_sub_data_handler] Unable to trigger graph guard condition."))
         tt]
  end.

(** The record after the three releases of [shutdown]. *)
Definition released (d : Data) : Data :=
  set_session None
    (set_shm_provider (option_map (fun _ => None) (shm_provider_ d))
       (set_graph_subscriber None d)).

(** The events of the three releases of [shutdown] on the record [d], with
    the answers [r0] and [r] of the subscription and of the session. *)
Definition releases (d : Data) (r0 r : z_result_t) : list event :=
  Event _ (z_undeclare_subscriber (graph_subscriber_ d)) r0
  :: match shm_provider_ d with
     | Some p => [Event _ (z_drop_shm_provider p) tt]
     | None => []
     end
  ++ [Event _ (z_close (session_ d)) r].

End rmw_context_impl_s_api.

(** ** rmw_context_impl_s.cpp: the constructor of the context *)

Module rmw_context_impl_s_init.

Import rmw_context_impl_s.

Definition z_owned_config_t : Type := option nat.

(** The key read from the configuration. *)
Inductive config_key : Type := Z_CONFIG_SHARED_MEMORY_KEY.

Definition SHM_BUFFER_SIZE_MB : Z := 10.

(** The calls of the constructor, indexed by the type of their answer: the
    calls of [Data] ([of_Data]) and the ones of the constructor alone.
    [session_routers] stands for the identities that [z_info_routers_zid]
    hands to the closure of [zenoh_router_check] at the time of the call. *)
Inductive init_call : Type -> Type :=
| get_z_config : init_call (rmw_ret_t * z_owned_config_t)
| zc_config_get_from_str (config : z_owned_config_t) (key : config_key)
  : init_call attachment_helpers.z_owned_string_t
| z_drop_string (s : attachment_helpers.z_owned_string_t) : init_call unit
| z_open (config : z_owned_config_t) : init_call (z_result_t * z_owned_session_t)
| zenoh_router_check_attempts : init_call (option N)
| session_routers (s : z_owned_session_t) : init_call zenoh_router.z_session_t
| RCUTILS_LOG (r : log_record) : init_call unit
| sleep_for_milliseconds (ms : Z) : init_call unit
| z_info_zid (s : z_owned_session_t) : init_call zenoh_router.z_id_t
| make_GraphCache (zid : zenoh_router.z_id_t) : init_call nat
| subscription_token (domain_id : N) : init_call string
| RMW_ZENOH_LOG_DEBUG_NAMED (name msg : string) : init_call unit
| z_memory_layout_new (size : Z) (alignment : Z) : init_call (option nat)
| z_posix_shm_provider_new (layout : option nat)
  : init_call (z_result_t * z_owned_shm_provider_t)
| make_guard_condition : init_call nat
| of_Data (R : Type) (c : call R) : init_call R.

Arguments of_Data {R} c.

Inductive prog (A : Type) : Type :=
| Ret (a : A)
| Vis (R : Type) (c : init_call R) (k : R -> prog A).

Arguments Ret {A} a.
Arguments Vis {A R} c k.

Fixpoint pbind {A B : Type} (m : prog A) (f : A -> prog B) : prog B :=
  match m with
  | Ret a => f a
  | Vis c k => Vis c (fun r => pbind (k r) f)
  end.

Definition ask {R : Type} (c : init_call R) : prog R := Vis c Ret.

Notation "x <~ m ;; f" := (pbind m (fun x => f))
  (at level 61, m at next level, right associativity).

(** A program of [Data] as a program of the constructor. *)
Fixpoint lift {A : Type} (m : action A) : prog A :=
  match m with
  | Done a => Ret a
  | Call c k => Vis (of_Data c) (fun r => lift (k r))
  end.

Inductive init_event : Type :=
| Init_event (R : Type) (c : init_call R) (r : R).

Definition init_environment : Type :=
  list init_event -> forall R : Type, init_call R -> R.

Fixpoint run_init {A : Type} (env : init_environment) (past : list init_event)
    (m : prog A) : A * list init_event :=
  match m with
  | Ret a => (a, [])
  | Vis c k =>
      let r := env past _ c in
      let '(a, tr) := run_init env (Init_event _ c r :: past) (k r) in
      (a, Init_event _ c r :: tr)
  end.

(** How the constructor ends: with an object, or with the
    [std::runtime_error] it throws. *)
Inductive outcome : Type :=
| Constructed (data_ : Data)
| Thrown (what : string).

Fixpoint log_all (l : list log_record) : prog unit :=
  match l with
  | [] => Ret tt
  | r :: l' => _ <~ ask (RCUTILS_LOG r) ;; log_all l'
  end.

(** The call [rmw_zenoh_cpp::zenoh_router_check(z_loan(session))]. *)
Definition router_check (session : z_owned_session_t) : prog rmw_ret_t :=
  routers <~ ask (session_routers session) ;;
  _ <~ log_all (snd (zenoh_router.zenoh_router_check routers)) ;;
  Ret (fst (zenoh_router.zenoh_router_check routers)).

(** The loop [while (ret != RMW_RET_OK && connection_attempts <
    configured_connection_attempts.value())], entered with [ret] an error;
    [remaining] is the configured number less [connection_attempts]. *)
Fixpoint router_check_loop (session : z_owned_session_t) (remaining : nat)
  : prog rmw_ret_t :=
  match remaining with
  | O => Ret RMW_RET_ERROR
  | S remaining' =>
      ret <~ router_check session ;;
      _ <~ ask (sleep_for_milliseconds 100) ;;
      match ret with
      | RMW_RET_OK => Ret RMW_RET_OK
      | RMW_RET_ERROR => router_check_loop session remaining'
      end
  end.

(** The test [strncmp(z_string_data(shm_enabled), "true",
    z_string_len(shm_enabled)) == 0]. *)
Definition shm_is_enabled (shm_enabled : attachment_helpers.z_owned_string_t) : bool :=
  strncmp (attachment_helpers.z_string_data shm_enabled) "true"
    (attachment_helpers.z_string_len shm_enabled) =? 0.

(** The constructor [rmw_context_impl_s(domain_id, enclave)].  The scope
    exits [always_free_shm_enabled], [close_session] and
    [free_shm_provider] are written out where the scope is left: the first
    one on every path, the second one on the paths before it is cancelled,
    the third one is cancelled right after its construction.  When the
    constructor throws after [data_] was made, the member is destroyed
    after the locals, which runs [Data::~Data]. *)
Definition rmw_context_impl_s_ctor (domain_id : N) (enclave : string)
  : prog outcome :=
  c <~ ask get_z_config ;;
  match fst c with
  | RMW_RET_ERROR => Ret (Thrown "Error configuring Zenoh session.")
  | RMW_RET_OK =>
      let config := snd c in
      shm_enabled <~ ask (zc_config_get_from_str config Z_CONFIG_SHARED_MEMORY_KEY) ;;
      let always_free_shm_enabled := ask (z_drop_string shm_enabled) in
      o <~ ask (z_open (fst (z_move config))) ;;
      let session := snd o in
      if negb (fst o =? Z_OK)
      then
        _ <~ ask (of_Data (RMW_SET_ERROR_MSG "Error setting up zenoh session")) ;;
        _ <~ always_free_shm_enabled ;;
        Ret (Thrown "Error setting up zenoh session.")
      else
        let close_session := ask (of_Data (z_close (fst (z_move session)))) in
        configured_connection_attempts <~ ask zenoh_router_check_attempts ;;
        ret <~ match configured_connection_attempts with
               | Some n => router_check_loop session (N.to_nat n)
               | None => Ret RMW_RET_OK
               end ;;
        match ret, configured_connection_attempts with
        | RMW_RET_ERROR, Some n =>
            _ <~ close_session ;;
            _ <~ always_free_shm_enabled ;;
            Ret (Thrown ("Unable to connect to a Zenoh router after "
                         ++ decimal_text (Z.of_N n) ++ " retries."))
        | _, _ =>
            zid <~ ask (z_info_zid session) ;;
            graph_cache <~ ask (make_GraphCache zid) ;;
            liveliness_str <~ ask (subscription_token domain_id) ;;
            shm <~ (if shm_is_enabled shm_enabled
                    then
                      _ <~ ask (RMW_ZENOH_LOG_DEBUG_NAMED "rmw_zenoh_cpp" "SHM is enabled") ;;
                      layout <~ ask (z_memory_layout_new
                                       (SHM_BUFFER_SIZE_MB * 1024 * 1024) 5) ;;
                      p <~ ask (z_posix_shm_provider_new layout) ;;
                      if negb (fst p =? Z_OK)
                      then
                        _ <~ ask (of_Data (RMW_ZENOH_LOG
                                    (LOG_ERROR, "rmw_zenoh_cpp",
                                     "Unable to create a SHM provider."))) ;;
                        Ret None
                      else Ret (Some (Some (snd p)))
                    else Ret (Some None)) ;;
            match shm with
            | None =>
                _ <~ close_session ;;
                _ <~ always_free_shm_enabled ;;
                Ret (Thrown "Unable to create shm manager.")
            | Some shm_provider =>
                guard_condition <~ ask make_guard_condition ;;
                let data_ :=
                  Data_ctor enclave session shm_provider liveliness_str
                    graph_cache guard_condition in
                sub <~ lift (subscribe_to_ros_graph data_) ;;
                match fst sub with
                | RMW_RET_OK =>
                    _ <~ always_free_shm_enabled ;;
                    Ret (Constructed (snd sub))
                | RMW_RET_ERROR =>
                    _ <~ always_free_shm_enabled ;;
                    _ <~ lift (Data_dtor (snd sub)) ;;
                    Ret (Thrown "Unable to subscribe to ROS Graph updates.")
                end
            end
        end
  end.

(** Observers of a trace of the constructor. *)
Definition is_open_ok (e : init_event) : bool :=
  match e with
  | Init_event _ c r =>
      match c in init_call R return R -> bool with
      | z_open _ => fun r => fst r =? Z_OK
      | _ => fun _ => false
      end r
  end.

Definition is_session_close (e : init_event) : bool :=
  match e with
  | Init_event _ (of_Data (z_close _)) _ => true
  | _ => false
  end.

Definition is_router_check (e : init_event) : bool :=
  match e with
  | Init_event _ (session_routers _) _ => true
  | _ => false
  end.

Definition is_sleep (e : init_event) : bool :=
  match e with
  | Init_event _ (sleep_for_milliseconds _) _ => true
  | _ => false
  end.

Definition is_string_drop (e : init_event) : bool :=
  match e with
  | Init_event _ (z_drop_string _) _ => true
  | _ => false
  end.

Definition is_config_read (e : init_event) : bool :=
  match e with
  | Init_event _ (zc_config_get_from_str _ _) _ => true
  | _ => false
  end.

Definition is_provider_ok (e : init_event) : bool :=
  match e with
  | Init_event _ c r =>
      match c in init_call R return R -> bool with
      | z_posix_shm_provider_new _ => fun r => fst r =? Z_OK
      | _ => fun _ => false
      end r
  end.

Definition is_provider_drop (e : init_event) : bool :=
  match e with
  | Init_event _ (of_Data (z_drop_shm_provider _)) _ => true
  | _ => false
  end.

(** [zenoh_router_check_attempts] was asked and answered [a]. *)
Definition is_attempts_answer (a : option N) (e : init_event) : bool :=
  match e with
  | Init_event _ c r =>
      match c in init_call R return R -> bool with
      | zenoh_router_check_attempts =>
          fun r =>
            match r, a with
            | Some n, Some m => (n =? m)%N
            | None, None => true
            | _, _ => false
            end
      | _ => fun _ => false
      end r
  end.

(** The number of router checks that the answer allows. *)
Definition attempts_allowed (a : option N) : nat :=
  match a with
  | Some n => N.to_nat n
  | None => O
  end.

Definition is_subscription (e : init_event) : bool :=
  match e with
  | Init_event _ (of_Data (zc_liveliness_declare_subscriber _ _ _)) _ => true
  | _ => false
  end.

Definition count_init (p : init_event -> bool) (tr : list init_event) : nat :=
  List.length (filter p tr).

(** The property of events overlooks what the loop of the router check
    does: the reads of the routers, the lines logged and the waits. *)
Definition overlooks_probe (p : init_event -> bool) : Prop :=
  (forall r u, p (Init_event _ (RCUTILS_LOG r) u) = false)
  /\ (forall s u, p (Init_event _ (session_routers s) u) = false)
  /\ (forall ms u, p (Init_event _ (sleep_for_milliseconds ms) u) = false).

(** What holds of the outcome and of the trace of every run of the
    constructor. *)
Definition ctor_post (enclave : string) (res : outcome * list init_event) : Prop :=
  (count_init is_open_ok (snd res) <= 1)%nat
  /\ count_init is_session_close (snd res)
     = match fst res with
       | Constructed _ => O
       | Thrown _ => count_init is_open_ok (snd res)
       end
  /\ count_init is_provider_drop (snd res)
     = match fst res with
       | Constructed _ => O
       | Thrown _ => count_init is_provider_ok (snd res)
       end
  /\ count_init is_string_drop (snd res) = count_init is_config_read (snd res)
  /\ (count_init is_config_read (snd res) <= 1)%nat
  /\ count_init is_sleep (snd res) = count_init is_router_check (snd res)
  /\ (forall a, (1 <= count_init (is_attempts_answer a) (snd res))%nat ->
                (count_init is_router_check (snd res) <= attempts_allowed a)%nat
                /\ (a = Some 0%N -> exists what, fst res = Thrown what))
  /\ (forall d, fst res = Constructed d ->
                is_initialized_ d = true /\ is_shutdown_ d = false
                /\ next_entity_id_ d = 0 /\ enclave_ d = enclave
                /\ count_init is_open_ok (snd res) = 1%nat
                /\ count_init is_subscription (snd res) = 1%nat).

(** [ctor_post] for the rest [m] of the constructor, after the events
    [pre], whatever has happened before. *)
Definition ctor_holds (env : init_environment) (enclave : string)
    (pre : list init_event) (m : prog outcome) : Prop :=
  forall past : list init_event,
    ctor_post enclave
      (fst (run_init env past m), pre ++ snd (run_init env past m)).

(** What holds of the result and of the trace of the loop of router checks
    that is entered with [n] attempts left. *)
Definition loop_post (n : nat) (ret : rmw_ret_t) (tr : list init_event) : Prop :=
  (count_init is_router_check tr <= n)%nat
  /\ (ret = RMW_RET_ERROR -> count_init is_router_check tr = n)
  /\ (ret = RMW_RET_OK -> (1 <= count_init is_router_check tr)%nat)
  /\ count_init is_sleep tr = count_init is_router_check tr
  /\ forall p, overlooks_probe p -> count_init p tr = O.

(** An environment in which every call succeeds: the configuration allows
    [attempts] router checks, [routers] are the routers that answer and
    [shm] is the text read at [Z_CONFIG_SHARED_MEMORY_KEY]. *)
Definition answers (attempts : option N) (routers : zenoh_router.z_session_t)
    (shm : string) : init_environment :=
  fun _ R c =>
    match c in init_call R return R with
    | get_z_config => (RMW_RET_OK, Some 1%nat)
    | zc_config_get_from_str _ _ => shm
    | z_drop_string _ => tt
    | z_open _ => (Z_OK, Some 2%nat)
    | zenoh_router_check_attempts => attempts
    | session_routers _ => routers
    | RCUTILS_LOG _ => tt
    | sleep_for_milliseconds _ => tt
    | z_info_zid _ => zenoh_router.mk_zid (repeat x00 16)
    | make_GraphCache _ => 3%nat
    | subscription_token _ => "@ros2_lv/0/**"
    | RMW_ZENOH_LOG_DEBUG_NAMED _ _ => tt
    | z_memory_layout_new _ _ => Some 4%nat
    | z_posix_shm_provider_new _ => (Z_OK, Some 5%nat)
    | make_guard_condition => 6%nat
    | of_Data c => spec.all_ok [] _ c
    end.

End rmw_context_impl_s_init.

Import attachment_helpers zenoh_router rmw_context_impl_s spec.

(** ** Facts about C strings *)

Section c_strings.

Lemma char_code_NUL (c : ascii) : char_code c = 0 <-> c = NUL.
Proof.
  unfold char_code, NUL. split.
  - intros H. rewrite <- (ascii_N_embedding c).
    replace (N_of_ascii c) with 0%N by lia. reflexivity.
  - intros ->. reflexivity.
Qed.

Lemma char_code_inj (c d : ascii) : char_code c = char_code d -> c = d.
Proof.
  unfold char_code. intros H.
  rewrite <- (ascii_N_embedding c), <- (ascii_N_embedding d).
  f_equal. lia.
Qed.

Lemma strcmp_0_iff (a b : string) : strcmp a b = 0 <-> key_matches a b.
Proof.
  unfold key_matches. revert b.
  induction a as [|c a IH]; intros [|d b]; simpl.
  - tauto.
  - destruct (Ascii.eqb_spec d NUL) as [->|Hd].
    + split; reflexivity.
    + split; [intros H | discriminate].
      exfalso. apply Hd, char_code_NUL. lia.
  - destruct (Ascii.eqb_spec c NUL) as [->|Hc].
    + split; reflexivity.
    + split; [intros H | discriminate].
      exfalso. apply Hc, char_code_NUL. lia.
  - destruct (Ascii.eqb_spec c d) as [->|Hcd].
    + destruct (Ascii.eqb_spec d NUL) as [->|Hd].
      * split; reflexivity.
      * rewrite IH. split; [intros -> | intros H; injection H]; auto.
    + split.
      * intros H. exfalso. apply Hcd, char_code_inj. lia.
      * intros H. exfalso.
        destruct (Ascii.eqb_spec c NUL) as [->|Hc];
          destruct (Ascii.eqb_spec d NUL) as [->|Hd];
          try discriminate; congruence.
Qed.

Lemma c_str_nul_free (s : string) : nul_free s = true -> c_str s = s.
Proof.
  induction s as [|c s IH]; simpl; [reflexivity|].
  intros H. apply andb_prop in H. destruct H as [Hc Hs].
  destruct (Ascii.eqb c NUL); [discriminate|].
  rewrite IH; auto.
Qed.

Lemma key_matches_nul_free (k key : string) :
  nul_free k = true -> nul_free key = true -> (key_matches k key <-> k = key).
Proof.
  intros Hk Hkey. unfold key_matches.
  rewrite (c_str_nul_free _ Hk), (c_str_nul_free _ Hkey). tauto.
Qed.

End c_strings.

(** ** Facts about [strtol] on decimal text *)

Section strtol_facts.

Lemma digits_string_of_uint (d : Decimal.uint) :
  forall acc,
    digits (NilEmpty.string_of_uint d ++ String NUL "")%string acc
    = (uint_val d acc, Decimal.nb_digits d).
Proof.
  induction d; intros acc;
    cbn [NilEmpty.string_of_uint String.append digits Decimal.nb_digits uint_val];
    try reflexivity;
    match goal with
    | |- context [isdigit ?c] => change (isdigit c) with true
    end;
    cbv iota;
    match goal with
    | |- context [char_code ?c - 48] =>
        let v := eval vm_compute in (char_code c - 48) in
        change (char_code c - 48) with v
    end;
    rewrite IHd; reflexivity.
Qed.

Lemma uint_val_pos (d : Decimal.uint) :
  forall p, uint_val d (Z.pos p) = Z.pos (Pos.of_uint_acc d p).
Proof.
  induction d; intros p; cbn [uint_val Pos.of_uint_acc]; try reflexivity;
    rewrite <- IHd; f_equal; lia.
Qed.

Lemma uint_val_0 (d : Decimal.uint) : uint_val d 0 = Z.of_N (Pos.of_uint d).
Proof.
  induction d; cbn [uint_val Pos.of_uint]; try reflexivity;
    try (rewrite <- IHd; reflexivity);
    cbn [Z.mul Z.add Z.of_N]; apply uint_val_pos.
Qed.

Lemma length_string_of_uint (d : Decimal.uint) :
  String.length (NilEmpty.string_of_uint d) = Decimal.nb_digits d.
Proof.
  induction d; cbn [NilEmpty.string_of_uint String.length Decimal.nb_digits];
    congruence.
Qed.

Lemma isdigit_plain (c : ascii) :
  isdigit c = true ->
  isspace c = false /\ Ascii.eqb c "-" = false /\ Ascii.eqb c "+" = false.
Proof.
  destruct c as [[] [] [] [] [] [] [] []]; vm_compute; intuition congruence.
Qed.

Lemma string_of_uint_head (d : Decimal.uint) :
  d <> Decimal.Nil ->
  exists c s, NilEmpty.string_of_uint d = String c s /\ isdigit c = true.
Proof.
  destruct d; intros H; try congruence;
    cbn [NilEmpty.string_of_uint]; eexists _, _; split; reflexivity.
Qed.

Lemma nb_digits_pos (d : Decimal.uint) :
  d <> Decimal.Nil -> exists n, Decimal.nb_digits d = S n.
Proof. destruct d; intros H; try congruence; cbn; eauto. Qed.

Lemma strtol_unsigned_text (p : positive) :
  Z.pos p <= LONG_MAX ->
  strtol (int64_str (decimal_text (Z.pos p)))
  = mk_strtol (Z.pos p) (String.length (decimal_text (Z.pos p))) 0.
Proof.
  intros Hmax.
  unfold decimal_text, int64_str, z_string_data. cbn [Z.to_int NilEmpty.string_of_int].
  pose proof (Unsigned.to_uint_nonnil p) as Hnil.
  destruct (string_of_uint_head _ Hnil) as (c & s & Hs & Hc).
  destruct (isdigit_plain c Hc) as (Hsp & Hm & Hp).
  destruct (nb_digits_pos _ Hnil) as (n & Hn).
  unfold strtol.
  assert (Hws : skip_space (NilEmpty.string_of_uint (Pos.to_uint p) ++ String NUL "") = O).
  { rewrite Hs. cbn [String.append skip_space]. rewrite Hsp. reflexivity. }
  rewrite Hws. cbn [advance].
  assert (Hsg : sign (NilEmpty.string_of_uint (Pos.to_uint p) ++ String NUL "") = (false, O)).
  { rewrite Hs. cbn [String.append sign]. rewrite Hm, Hp. reflexivity. }
  rewrite Hsg. cbn [advance].
  rewrite digits_string_of_uint, uint_val_0, Unsigned.of_to, Hn.
  cbn [Z.of_N].
  rewrite length_string_of_uint, Hn.
  replace (LONG_MAX <? Z.pos p) with false by (symmetry; apply Z.ltb_ge; lia).
  replace (Z.pos p <? LONG_MIN) with false by (symmetry; apply Z.ltb_ge; unfold LONG_MIN; lia).
  reflexivity.
Qed.

Lemma strtol_negative_text (p : positive) :
  LONG_MIN <= Z.neg p ->
  strtol (int64_str (decimal_text (Z.neg p)))
  = mk_strtol (Z.neg p) (String.length (decimal_text (Z.neg p))) 0.
Proof.
  intros Hmin.
  unfold decimal_text, int64_str, z_string_data. cbn [Z.to_int NilEmpty.string_of_int].
  pose proof (Unsigned.to_uint_nonnil p) as Hnil.
  destruct (nb_digits_pos _ Hnil) as (n & Hn).
  unfold strtol.
  cbn [String.append skip_space].
  change (isspace "-") with false. cbv iota.
  cbn [advance sign]. change (Ascii.eqb "-" "-") with true. cbv iota.
  cbn [advance].
  rewrite digits_string_of_uint, uint_val_0, Unsigned.of_to, Hn.
  cbn [Z.of_N Z.opp String.length].
  rewrite length_string_of_uint, Hn.
  replace (LONG_MAX <? Z.neg p) with false by (symmetry; apply Z.ltb_ge; unfold LONG_MAX; lia).
  replace (Z.neg p <? LONG_MIN) with false by (symmetry; apply Z.ltb_ge; lia).
  reflexivity.
Qed.

Lemma strtol_decimal_text (n : Z) :
  LONG_MIN <= n <= LONG_MAX ->
  strtol (int64_str (decimal_text n))
  = mk_strtol n (String.length (decimal_text n)) 0.
Proof.
  intros [Hmin Hmax]. destruct n as [|p|p].
  - reflexivity.
  - apply strtol_unsigned_text; assumption.
  - apply strtol_negative_text; assumption.
Qed.

Lemma deref_terminator (s : string) :
  deref (int64_str s) (String.length s) = NUL.
Proof.
  unfold int64_str, z_string_data, deref.
  induction s as [|c s IH]; cbn [String.append String.length String.get]; auto.
Qed.

End strtol_facts.

(** ** attachment_helpers.cpp: reads of length delimited strings *)

Lemma length_list_byte_of_string (s : string) :
  List.length (list_byte_of_string s) = String.length s.
Proof.
  unfold list_byte_of_string. rewrite length_map.
  induction s as [|c s IH]; cbn [list_ascii_of_string List.length String.length];
    congruence.
Qed.

Section bounded_reads.

Lemma c_string_at_nul_free (data : string) :
  nul_free data = true -> c_string_at data = None.
Proof.
  induction data as [|c data IH]; cbn [nul_free c_string_at]; [reflexivity|].
  intros H. apply andb_prop in H. destruct H as [Hc Hd].
  destruct (Ascii.eqb c NUL); [discriminate|]. rewrite (IH Hd). reflexivity.
Qed.

Lemma c_string_at_inv (data t : string) :
  c_string_at data = Some t ->
  nul_free t = true /\ exists rest, data = (t ++ String NUL rest)%string.
Proof.
  revert t. induction data as [|c data IH]; intros t; cbn [c_string_at].
  - discriminate.
  - destruct (Ascii.eqb_spec c NUL) as [->|Hc].
    + intros H. injection H as <-. split; [reflexivity|]. exists data. reflexivity.
    + destruct (c_string_at data) as [s|]; [|discriminate].
      intros H. injection H as <-.
      destruct (IH s eq_refl) as (Hs & rest & ->).
      split.
      * cbn [nul_free]. rewrite Hs.
        destruct (Ascii.eqb_spec c NUL); [contradiction | reflexivity].
      * exists rest. reflexivity.
Qed.

Lemma c_string_at_append (t rest : string) :
  nul_free t = true -> c_string_at (t ++ String NUL rest) = Some t.
Proof.
  induction t as [|c t IH]; cbn [nul_free String.append c_string_at].
  - reflexivity.
  - intros H. apply andb_prop in H. destruct H as [Hc Ht].
    destruct (Ascii.eqb c NUL); [discriminate|]. rewrite (IH Ht). reflexivity.
Qed.

(** Within an object that holds a NUL, [strcmp] compares the C string before
    that NUL. *)
Lemma strcmp_at_c_string (data t : string) :
  c_string_at data = Some t ->
  forall b, strcmp_at data b = Returns (strcmp t b) [].
Proof.
  revert t. induction data as [|c data IH]; intros t; cbn [c_string_at].
  - discriminate.
  - destruct (Ascii.eqb_spec c NUL) as [->|Hc].
    + intros H. injection H as <-. intros [|d b]; cbn [strcmp_at strcmp].
      * reflexivity.
      * destruct (Ascii.eqb_spec NUL d) as [<-|Hd]; reflexivity.
    + destruct (c_string_at data) as [s|]; [|discriminate].
      intros H. injection H as <-. intros [|d b]; cbn [strcmp_at strcmp].
      * reflexivity.
      * destruct (Ascii.eqb_spec c d) as [<-|Hd]; [|reflexivity].
        destruct (Ascii.eqb_spec c NUL); [contradiction|].
        apply (IH s eq_refl).
Qed.

Lemma strcmp_c_string_0 (t b : string) :
  nul_free t = true -> (strcmp t b = 0 <-> t = c_str b).
Proof.
  intros Ht. rewrite strcmp_0_iff. unfold key_matches.
  rewrite (c_str_nul_free t Ht). tauto.
Qed.

End bounded_reads.

(** ** attachment_helpers.cpp: the scan of [get_attachment] *)

Section attachment_facts.

Variable des : z_bytes -> z_owned_string_t.
Variable chk : z_owned_string_t -> bool.

(** A pair is passed over, or the scan stops at it, or the read of its key
    runs past the end of the key. *)
Lemma pair_cases (key : string) (p : z_bytes * z_bytes) :
  passed_over des key p \/ stops_at des key p \/ c_string_at (des (fst p)) = None.
Proof.
  unfold passed_over, stops_at.
  destruct (c_string_at (des (fst p))) as [t|]; [|right; right; reflexivity].
  destruct (string_dec t (c_str key)) as [->|Ht].
  - right. left. reflexivity.
  - left. exists t. split; [reflexivity | exact Ht].
Qed.

Lemma get_attachment_loop_pass (p : z_bytes * z_bytes) (rest : attachment)
    (key : string) :
  passed_over des key p ->
  get_attachment_loop des (p :: rest) key
  = (_ <<- Returns tt (passed_output des [p]) ;; get_attachment_loop des rest key).
Proof.
  intros (t & Ht & Hne). destruct p as [k v]. cbn [fst] in Ht.
  destruct (c_string_at_inv _ _ Ht) as (Hnf & _).
  cbn [get_attachment_loop passed_output flat_map fst].
  unfold printf, printf_s, z_string_data. rewrite Ht.
  rewrite (strcmp_at_c_string _ _ Ht).
  cbn [and_then app].
  destruct (Z.eqb_spec (strcmp t key) 0) as [E|E].
  - exfalso. apply Hne. apply strcmp_c_string_0; assumption.
  - destruct (get_attachment_loop des rest key); reflexivity.
Qed.

Lemma passed_output_app (pre rest : attachment) :
  passed_output des (pre ++ rest) = passed_output des pre ++ passed_output des rest.
Proof. unfold passed_output. apply flat_map_app. Qed.

Lemma get_attachment_loop_skip (pre rest : attachment) (key : string) :
  Forall (passed_over des key) pre ->
  get_attachment_loop des (pre ++ rest) key
  = (_ <<- Returns tt (passed_output des pre) ;; get_attachment_loop des rest key).
Proof.
  induction 1 as [|p pre Hp Hpre IH]; cbn [app].
  - cbn [passed_output flat_map and_then app].
    destruct (get_attachment_loop des rest key); reflexivity.
  - rewrite (get_attachment_loop_pass p (pre ++ rest) key Hp), IH.
    change (p :: pre) with ([p] ++ pre). rewrite passed_output_app.
    cbn [and_then].
    destruct (get_attachment_loop des rest key); [|reflexivity].
    rewrite app_assoc. reflexivity.
Qed.

Lemma get_attachment_loop_end (a : attachment) (key : string) :
  Forall (passed_over des key) a ->
  get_attachment_loop des a key = Returns (None, []) (passed_output des a).
Proof.
  intros H. rewrite <- (List.app_nil_r a) at 1.
  rewrite (get_attachment_loop_skip a [] key H).
  cbn [get_attachment_loop and_then]. rewrite List.app_nil_r. reflexivity.
Qed.

Lemma get_attachment_loop_stop (k v : z_bytes) (post : attachment)
    (key tv : string) :
  stops_at des key (k, v) ->
  c_string_at (des v) = Some tv ->
  get_attachment_loop des ((k, v) :: post) key
  = Returns (Some (des v), post) (found_output key tv).
Proof.
  unfold stops_at. cbn [fst]. intros Hk Hv.
  destruct (c_string_at_inv _ _ Hk) as (Hnf & _).
  cbn [get_attachment_loop]. unfold printf, printf_s, z_string_data.
  rewrite Hk, Hv, (strcmp_at_c_string _ _ Hk).
  replace (strcmp (c_str key) key) with 0
    by (symmetry; apply strcmp_c_string_0; [exact Hnf | reflexivity]).
  reflexivity.
Qed.

Lemma get_attachment_loop_past_key (k v : z_bytes) (post : attachment) (key : string) :
  c_string_at (des k) = None ->
  get_attachment_loop des ((k, v) :: post) key = Undefined.
Proof.
  intros Hk. cbn [get_attachment_loop]. unfold printf, printf_s, z_string_data.
  rewrite Hk. reflexivity.
Qed.

Lemma get_attachment_loop_past_value (k v : z_bytes) (post : attachment) (key : string) :
  stops_at des key (k, v) ->
  c_string_at (des v) = None ->
  get_attachment_loop des ((k, v) :: post) key = Undefined.
Proof.
  unfold stops_at. cbn [fst]. intros Hk Hv.
  destruct (c_string_at_inv _ _ Hk) as (Hnf & _).
  cbn [get_attachment_loop]. unfold printf, printf_s, z_string_data.
  rewrite Hk, Hv, (strcmp_at_c_string _ _ Hk).
  replace (strcmp (c_str key) key) with 0
    by (symmetry; apply strcmp_c_string_0; [exact Hnf | reflexivity]).
  reflexivity.
Qed.

Lemma get_attachment_loop_scan (a : attachment) (key : string) :
  scan des key a (get_attachment_loop des a key).
Proof.
  induction a as [|[k v] a IH].
  - apply (scan_end des key []). constructor.
  - destruct (pair_cases key (k, v)) as [Hp|[Hs|Hn]].
    + rewrite (get_attachment_loop_pass (k, v) a key Hp).
      inversion IH as [Hall Heq|pre post k0 v0 tv Ha Hpre Hstop Hv Heq
                      |pre post k0 v0 Ha Hpre Hbad Heq].
      * cbn [and_then].
        change (passed_output des [(k, v)] ++ passed_output des a)
          with (passed_output des ((k, v) :: a)).
        apply scan_end. constructor; assumption.
      * cbn [and_then]. rewrite app_assoc.
        change (passed_output des [(k, v)] ++ passed_output des pre)
          with (passed_output des ((k, v) :: pre)).
        apply (scan_found des key _ ((k, v) :: pre) post k0 v0 tv);
          [rewrite Ha; reflexivity | constructor; assumption | assumption | assumption].
      * cbn [and_then].
        apply (scan_past des key _ ((k, v) :: pre) post k0 v0);
          [rewrite Ha; reflexivity | constructor; assumption | assumption].
    + destruct (c_string_at (des v)) as [tv|] eqn:Hv.
      * rewrite (get_attachment_loop_stop k v a key tv Hs Hv).
        apply (scan_found des key _ [] a k v tv); auto.
      * rewrite (get_attachment_loop_past_value k v a key Hs Hv).
        apply (scan_past des key _ [] a k v); auto.
    + cbn [fst] in Hn. rewrite (get_attachment_loop_past_key k v a key Hn).
      apply (scan_past des key _ [] a k v); auto.
Qed.

Lemma get_attachment_found (pre post : attachment) (k v : z_bytes)
    (key tv : string) :
  Forall (passed_over des key) pre ->
  stops_at des key (k, v) ->
  c_string_at (des v) = Some tv ->
  get_attachment des chk (pre ++ (k, v) :: post) key
  = Returns (chk (des v), Some (des v))
      (passed_output des pre ++ found_output key tv).
Proof.
  intros Hpre Hk Hv. unfold get_attachment.
  replace (z_bytes_is_empty (pre ++ (k, v) :: post)) with false
    by (destruct pre; reflexivity).
  rewrite (get_attachment_loop_skip pre _ key Hpre),
    (get_attachment_loop_stop k v post key tv Hk Hv).
  cbn [and_then fst]. destruct (chk (des v)); cbn [negb]; rewrite List.app_nil_r;
    reflexivity.
Qed.

Lemma get_attachment_not_found (a : attachment) (key : string) :
  a <> [] ->
  Forall (passed_over des key) a ->
  get_attachment des chk a key = Returns (false, None) (passed_output des a).
Proof.
  intros Ha Hall. unfold get_attachment.
  replace (z_bytes_is_empty a) with false by (destruct a; [contradiction | reflexivity]).
  rewrite (get_attachment_loop_end a key Hall).
  cbn [and_then fst]. rewrite List.app_nil_r. reflexivity.
Qed.

Lemma get_attachment_past (pre post : attachment) (k v : z_bytes) (key : string) :
  Forall (passed_over des key) pre ->
  c_string_at (des k) = None
  \/ (stops_at des key (k, v) /\ c_string_at (des v) = None) ->
  get_attachment des chk (pre ++ (k, v) :: post) key = Undefined.
Proof.
  intros Hpre Hbad. unfold get_attachment.
  replace (z_bytes_is_empty (pre ++ (k, v) :: post)) with false
    by (destruct pre; reflexivity).
  rewrite (get_attachment_loop_skip pre _ key Hpre).
  destruct Hbad as [Hk|[Hk Hv]].
  - rewrite (get_attachment_loop_past_key k v post key Hk). reflexivity.
  - rewrite (get_attachment_loop_past_value k v post key Hk Hv). reflexivity.
Qed.

(** The flag is [true] only with a value written, and nothing is written
    without a pair at which the scan stopped. *)
Lemma get_attachment_inv (a : attachment) (key : string)
    (b : bool) (w : option z_owned_string_t) (out : list string) :
  get_attachment des chk a key = Returns (b, w) out ->
  (b = false /\ w = None
   /\ ((a = [] /\ out = [("1" ++ LF)%string])
       \/ (a <> [] /\ Forall (passed_over des key) a /\ out = passed_output des a)))
  \/ exists pre post k v tv,
       a = pre ++ (k, v) :: post
       /\ Forall (passed_over des key) pre
       /\ stops_at des key (k, v)
       /\ c_string_at (des v) = Some tv
       /\ b = chk (des v) /\ w = Some (des v)
       /\ out = passed_output des pre ++ found_output key tv.
Proof.
  destruct a as [|p a'].
  - cbn. intros H. injection H as <- <- <-. left. auto.
  - remember (p :: a') as a eqn:Ea.
    assert (Hne : a <> []) by (subst a; discriminate).
    pose proof (get_attachment_loop_scan a key) as Hs.
    inversion Hs as [Hall Heq|pre post k v tv Ha Hpre Hstop Hv Heq
                    |pre post k v Ha Hpre Hbad Heq].
    + rewrite (get_attachment_not_found a key Hne Hall).
      intros H. injection H as <- <- <-. left.
      split; [reflexivity|]. split; [reflexivity|]. right. auto.
    + rewrite Ha, (get_attachment_found pre post k v key tv Hpre Hstop Hv).
      intros H. injection H as <- <- <-. right.
      exists pre, post, k, v, tv. repeat split; auto.
    + rewrite Ha, (get_attachment_past pre post k v key Hpre Hbad). discriminate.
Qed.

Lemma get_attachment_true (a : attachment) (key : string)
    (w : option z_owned_string_t) (out : list string) :
  get_attachment des chk a key = Returns (true, w) out ->
  exists val, w = Some val /\ chk val = true /\ c_string_at val <> None
              /\ z_bytes_is_empty a = false.
Proof.
  intros H. destruct (get_attachment_inv a key true w out H)
    as [(F & _)|(pre & post & k & v & tv & -> & _ & _ & Hv & Hb & -> & _)].
  - discriminate F.
  - exists (des v). repeat split; auto.
    + rewrite Hv. discriminate.
    + destruct pre; reflexivity.
Qed.

(** ** attachment_helpers.cpp: the callers of the lookup *)

Lemma get_gid_found (a : attachment) (gid : list byte)
    (val : z_owned_string_t) (out : list string) :
  get_attachment des chk a "source_gid" = Returns (true, Some val) out ->
  get_gid_from_attachment des chk a gid
  = Returns (if (z_string_len val =? 16)%nat
             then (true, list_byte_of_string val ++ skipn 16 gid)
             else (false, gid)) out.
Proof.
  intros H. unfold get_gid_from_attachment, RMW_GID_STORAGE_SIZE. rewrite H.
  cbn [and_then fst snd negb z_loan z_drop app].
  destruct (Nat.eqb_spec (z_string_len val) 16) as [E|E]; cbn [negb];
    rewrite ?List.app_nil_r; [|reflexivity].
  unfold memcpy, z_string_data. rewrite E, firstn_all2; [reflexivity|].
  rewrite length_list_byte_of_string. unfold z_string_len in E. lia.
Qed.

Lemma get_gid_refused (a : attachment) (gid : list byte)
    (val : z_owned_string_t) (out : list string) :
  get_attachment des chk a "source_gid" = Returns (false, Some val) out ->
  get_gid_from_attachment des chk a gid = Returns (false, gid) out.
Proof.
  intros H. unfold get_gid_from_attachment. rewrite H.
  cbn [and_then fst snd negb z_drop app]. rewrite List.app_nil_r. reflexivity.
Qed.

Lemma get_gid_unwritten (a : attachment) (gid : list byte) (out : list string) :
  get_attachment des chk a "source_gid" = Returns (false, None) out ->
  get_gid_from_attachment des chk a gid = Undefined.
Proof.
  intros H. unfold get_gid_from_attachment. rewrite H. reflexivity.
Qed.

Lemma get_gid_undefined (a : attachment) (gid : list byte) :
  get_attachment des chk a "source_gid" = Undefined ->
  get_gid_from_attachment des chk a gid = Undefined.
Proof.
  intros H. unfold get_gid_from_attachment. rewrite H. reflexivity.
Qed.

Lemma get_int64_found (a : attachment) (name : string)
    (val : z_owned_string_t) (out : list string) :
  get_attachment des chk a name = Returns (true, Some val) out ->
  get_int64_from_attachment des chk a name = Returns (converted val) out.
Proof.
  intros H. destruct (get_attachment_true a name _ out H) as (_ & _ & _ & _ & Ha).
  unfold get_int64_from_attachment, converted. rewrite Ha, H.
  cbn [and_then fst snd negb z_loan app].
  destruct (z_string_len val <? 1)%nat; [rewrite List.app_nil_r; reflexivity|].
  destruct (19 <? z_string_len val)%nat; [rewrite List.app_nil_r; reflexivity|].
  cbv zeta.
  destruct (num (strtol (int64_str val)) =? 0); [rewrite List.app_nil_r; reflexivity|].
  destruct (endptr (strtol (int64_str val)) =? 0)%nat;
    [rewrite List.app_nil_r; reflexivity|].
  destruct (negb (Ascii.eqb (deref (int64_str val) (endptr (strtol (int64_str val)))) NUL));
    [rewrite List.app_nil_r; reflexivity|].
  destruct (negb (errno (strtol (int64_str val)) =? 0));
    rewrite List.app_nil_r; reflexivity.
Qed.


Lemma get_int64_unwritten (a : attachment) (name : string) (out : list string) :
  a <> [] ->
  get_attachment des chk a name = Returns (false, None) out ->
  get_int64_from_attachment des chk a name = Undefined.
Proof.
  intros Ha H. unfold get_int64_from_attachment. rewrite H.
  replace (z_bytes_is_empty a) with false by (destruct a; [contradiction | reflexivity]).
  reflexivity.
Qed.

Lemma get_int64_undefined (a : attachment) (name : string) :
  get_attachment des chk a name = Undefined ->
  get_int64_from_attachment des chk a name = Undefined.
Proof.
  intros H. unfold get_int64_from_attachment. rewrite H.
  destruct (z_bytes_is_empty a) eqn:Ha; [|reflexivity].
  destruct a; [discriminate H | discriminate Ha].
Qed.

Lemma converted_num_zero (val : z_owned_string_t) :
  num (strtol (int64_str val)) = 0 -> converted val = -1.
Proof.
  intros Hnum. unfold converted.
  destruct (z_string_len val <? 1)%nat; [reflexivity|].
  destruct (19 <? z_string_len val)%nat; [reflexivity|].
  cbv zeta. rewrite Hnum. reflexivity.
Qed.

End attachment_facts.

(** ** attachment_helpers.cpp: the claims on the lookup and its callers *)

Lemma nul_free_append (s t : string) :
  nul_free (s ++ t) = nul_free s && nul_free t.
Proof.
  induction s as [|c s IH]; cbn [String.append nul_free]; [reflexivity|].
  rewrite IH. apply andb_assoc.
Qed.

Lemma nul_free_string_of_uint (d : Decimal.uint) :
  nul_free (NilEmpty.string_of_uint d) = true.
Proof. induction d; cbn [NilEmpty.string_of_uint nul_free]; auto. Qed.

Lemma nul_free_decimal_text (n : Z) : nul_free (decimal_text n) = true.
Proof.
  unfold decimal_text.
  destruct n as [|p|p]; cbn [Z.to_int NilEmpty.string_of_int nul_free];
    try reflexivity; apply nul_free_string_of_uint.
Qed.

Section attachment_claims.

Variable des : z_bytes -> z_owned_string_t.
Variable chk : z_owned_string_t -> bool.

(** C2 does not hold of the code.  The scan hands the data of every key to
    [printf] and to [strcmp] as if a NUL followed it.  So where the first
    pair that the scan does not pass over has the lookup key as its key,
    byte for byte, the byte after the key is read, which is not the key's:
    the behaviour of the loop and of [get_attachment] is undefined, and the
    value of this first occurrence is not returned. *)
Theorem get_attachment_reads_past_key :
  forall (pre post : attachment) (k v : z_bytes) (key : string),
    nul_free key = true ->
    des k = key ->
    Forall (passed_over des key) pre ->
    get_attachment_loop des (pre ++ (k, v) :: post) key = Undefined
    /\ get_attachment des chk (pre ++ (k, v) :: post) key = Undefined.
Proof.
  intros pre post k v key Hkey Hk Hpre.
  assert (Hn : c_string_at (des k) = None)
    by (rewrite Hk; apply c_string_at_nul_free, Hkey).
  split.
  - rewrite (get_attachment_loop_skip des pre _ key Hpre),
      (get_attachment_loop_past_key des k v post key Hn).
    reflexivity.
  - apply get_attachment_past; auto.
Qed.

(** C3 does not hold of the code.  [get_gid_from_attachment] returns [true]
    exactly when the lookup of ["source_gid"] returns [true] with a value
    of 16 bytes, which are then the first 16 bytes of the buffer, and a
    value of another length gives [false] with the buffer as it was.  But
    when the lookup returns [false] without a value written, as it does
    for the empty attachment, the local [index] is dropped although nothing
    was written to it, and when the lookup reads past a key or a value the
    call does so too: the behaviour is undefined where the claim has a
    failure. *)
Theorem get_gid_from_attachment_cases :
  forall (a : attachment) (gid : list byte),
    (forall gid' out,
        get_gid_from_attachment des chk a gid = Returns (true, gid') out <->
        exists index,
          get_attachment des chk a "source_gid" = Returns (true, Some index) out
          /\ z_string_len index = 16%nat
          /\ gid' = list_byte_of_string index ++ skipn 16 gid)
    /\ (forall index out,
           get_attachment des chk a "source_gid" = Returns (true, Some index) out ->
           z_string_len index <> 16%nat ->
           get_gid_from_attachment des chk a gid = Returns (false, gid) out)
    /\ (forall out,
           get_attachment des chk a "source_gid" = Returns (false, None) out ->
           get_gid_from_attachment des chk a gid = Undefined)
    /\ (get_attachment des chk a "source_gid" = Undefined ->
        get_gid_from_attachment des chk a gid = Undefined)
    /\ get_gid_from_attachment des chk [] gid = Undefined.
Proof.
  intros a gid. split; [|split; [|split; [|split]]].
  - intros gid' out. split.
    + destruct (get_attachment des chk a "source_gid") as [[b w] o|] eqn:Hget.
      * destruct b.
        -- destruct (get_attachment_true des chk a _ w o Hget) as (val & -> & _).
           rewrite (get_gid_found des chk a gid val o Hget).
           destruct (Nat.eqb_spec (z_string_len val) 16) as [E|E];
             intros H; inversion H; subst.
           exists val. auto.
        -- destruct w as [val|].
           ++ rewrite (get_gid_refused des chk a gid val o Hget). discriminate.
           ++ rewrite (get_gid_unwritten des chk a gid o Hget). discriminate.
      * rewrite (get_gid_undefined des chk a gid Hget). discriminate.
    + intros (index & Hget & Hlen & ->).
      rewrite (get_gid_found des chk a gid index out Hget), Hlen. reflexivity.
  - intros index out Hget Hlen.
    rewrite (get_gid_found des chk a gid index out Hget).
    destruct (Nat.eqb_spec (z_string_len index) 16); [contradiction | reflexivity].
  - intros out. apply get_gid_unwritten.
  - apply get_gid_undefined.
  - reflexivity.
Qed.

(** C1 does not hold of the code.  Where the lookup returns a value that is
    a complete literal of 0, the result is the sentinel -1, as it is for
    the empty attachment.  But a key that is absent from an attachment
    that is not empty does not give the sentinel: when the scan has passed
    over every pair, the local [index] is dropped although nothing was
    written to it, and when the key of the first pair holds no NUL, as the
    text of a key does, the byte after it is read.  In both cases the
    behaviour is undefined. *)
Theorem get_int64_zero_and_absent :
  forall (a : attachment) (name : string),
    (forall val out,
        get_attachment des chk a name = Returns (true, Some val) out ->
        parses_as val 0 ->
        get_int64_from_attachment des chk a name = Returns (-1) out)
    /\ (forall k v a',
           a = (k, v) :: a' -> nul_free (des k) = true ->
           get_int64_from_attachment des chk a name = Undefined)
    /\ (a <> [] -> Forall (passed_over des name) a ->
        get_int64_from_attachment des chk a name = Undefined)
    /\ get_int64_from_attachment des chk [] name = Returns (-1) [].
Proof.
  intros a name. split; [|split; [|split]].
  - intros val out Hget (Hnum & _).
    rewrite (get_int64_found des chk a name val out Hget).
    rewrite (converted_num_zero val Hnum). reflexivity.
  - intros k v a' -> Hk.
    apply get_int64_undefined.
    apply (get_attachment_past des chk [] a' k v name (Forall_nil _)).
    left. apply c_string_at_nul_free, Hk.
  - intros Hne Hall.
    apply (get_int64_unwritten des chk a name (passed_output des a) Hne).
    apply get_attachment_not_found; assumption.
  - reflexivity.
Qed.

(** C4 does not hold of the code.  An attachment whose first pair has the
    canonical decimal text of [n] as its value does not give [n]: when the
    key of the pair is the lookup key, byte for byte, the byte after the
    key is read; and when that key holds a NUL after the characters of the
    lookup key, the scan stops at the pair and the byte after the text is
    read, since a decimal text holds no NUL.  In both cases the behaviour
    is undefined. *)
Theorem get_int64_decimal_text_undefined :
  forall (name : string) (n : Z) (k v : z_bytes) (a : attachment),
    des v = decimal_text n ->
    (nul_free name = true /\ des k = name) \/ stops_at des name (k, v) ->
    get_int64_from_attachment des chk ((k, v) :: a) name = Undefined.
Proof.
  intros name n k v a Hv Hk.
  apply get_int64_undefined.
  apply (get_attachment_past des chk [] a k v name (Forall_nil _)).
  destruct Hk as [[Hname Hk]|Hk].
  - left. rewrite Hk. apply c_string_at_nul_free, Hname.
  - right. split; [exact Hk|].
    rewrite Hv. apply c_string_at_nul_free, nul_free_decimal_text.
Qed.

End attachment_claims.

(** C2 at an attachment with the key ["k"] twice: the lookup of ["k"] reads
    the byte after the first key. *)
Lemma get_attachment_reads_past_key_witness :
  get_attachment bytes_as_text nonempty_text
    [(list_byte_of_string "k", list_byte_of_string "B");
     (list_byte_of_string "k", list_byte_of_string "C")] "k"
  = Undefined.
Proof.
  exact (proj2 (get_attachment_reads_past_key bytes_as_text nonempty_text
                  [] [(list_byte_of_string "k", list_byte_of_string "C")]
                  (list_byte_of_string "k") (list_byte_of_string "B") "k"
                  eq_refl eq_refl (Forall_nil _))).
Defined.

(** The same lookup with another key before the two: the read of that key
    runs past its end already. *)
Example get_attachment_other_key_first :
  get_attachment bytes_as_text nonempty_text
    [(list_byte_of_string "a", list_byte_of_string "1");
     (list_byte_of_string "k", list_byte_of_string "B");
     (list_byte_of_string "k", list_byte_of_string "C")] "k"
  = Undefined.
Proof. reflexivity. Qed.

(** With a NUL of their own after every key and value, the first of two
    pairs with the key is found, and the second one stays in the
    iterator. *)
Example get_attachment_terminated_duplicate :
  get_attachment_loop bytes_as_text
    [(terminated "a", terminated "1");
     (terminated "k", terminated "B");
     (terminated "k", terminated "C")] "k"
  = Returns (Some (String "B" (String NUL "")), [(terminated "k", terminated "C")])
      [("2" ++ LF)%string; ("3" ++ LF)%string; ("a" ++ LF)%string;
       ("2" ++ LF)%string; ("3" ++ LF)%string; ("k" ++ LF)%string;
       ("4" ++ LF)%string; ("5 Found B" ++ LF)%string].
Proof. reflexivity. Qed.

(** C3 at the empty attachment, and at the example of the specification,
    16 bytes ab under ["source_gid"]. *)
Lemma get_gid_from_attachment_cases_witness :
  get_gid_from_attachment bytes_as_text nonempty_text [] (repeat x00 16) = Undefined
  /\ get_gid_from_attachment bytes_as_text nonempty_text
       [(list_byte_of_string "source_gid", repeat xab 16)] (repeat x00 16)
     = Undefined.
Proof.
  split.
  - exact (proj2 (proj2 (proj2 (proj2
             (get_gid_from_attachment_cases bytes_as_text nonempty_text
                [] (repeat x00 16)))))).
  - apply (proj1 (proj2 (proj2 (proj2
             (get_gid_from_attachment_cases bytes_as_text nonempty_text
                [(list_byte_of_string "source_gid", repeat xab 16)]
                (repeat x00 16)))))).
    reflexivity.
Defined.

(** The identity where the key and a value of 16 bytes hold a NUL. *)
Example get_gid_16_bytes :
  get_gid_from_attachment bytes_as_text nonempty_text
    [(terminated "source_gid", repeat xab 15 ++ [x00])] (repeat x00 16)
  = Returns (true, repeat xab 15 ++ [x00])
      [("2" ++ LF)%string; ("3" ++ LF)%string; ("source_gid" ++ LF)%string;
       ("4" ++ LF)%string;
       ("5 Found " ++ string_of_list_byte (repeat xab 15) ++ LF)%string].
Proof. reflexivity. Qed.

Example get_gid_8_bytes :
  get_gid_from_attachment bytes_as_text nonempty_text
    [(terminated "source_gid", repeat xab 7 ++ [x00])] (repeat x00 16)
  = Returns (false, repeat x00 16)
      [("2" ++ LF)%string; ("3" ++ LF)%string; ("source_gid" ++ LF)%string;
       ("4" ++ LF)%string;
       ("5 Found " ++ string_of_list_byte (repeat xab 7) ++ LF)%string].
Proof. reflexivity. Qed.

(** C1 at an attachment with an identity and no sequence number, as it is
    and with a NUL after the key and the value; and at the attachment
    [("sequence_number", "0")]. *)
Lemma get_int64_zero_and_absent_witness :
  get_int64_from_attachment bytes_as_text nonempty_text
    [(list_byte_of_string "source_gid", repeat xab 16)]
    "sequence_number" = Undefined
  /\ get_int64_from_attachment bytes_as_text nonempty_text
       [(terminated "source_gid", repeat xab 15 ++ [x00])]
       "sequence_number" = Undefined
  /\ get_int64_from_attachment bytes_as_text nonempty_text
       [(list_byte_of_string "sequence_number", list_byte_of_string "0")]
       "sequence_number" = Undefined.
Proof.
  split; [|split].
  - exact (proj1 (proj2 (get_int64_zero_and_absent bytes_as_text nonempty_text
                           _ "sequence_number"))
             (list_byte_of_string "source_gid") (repeat xab 16) []
             eq_refl eq_refl).
  - apply (proj1 (proj2 (proj2 (get_int64_zero_and_absent bytes_as_text nonempty_text
                                  [(terminated "source_gid", repeat xab 15 ++ [x00])]
                                  "sequence_number")))).
    + discriminate.
    + constructor; [|constructor].
      exists "source_gid". split; [reflexivity | discriminate].
  - exact (proj1 (proj2 (get_int64_zero_and_absent bytes_as_text nonempty_text
                           _ "sequence_number"))
             (list_byte_of_string "sequence_number") (list_byte_of_string "0") []
             eq_refl eq_refl).
Defined.

(** The literal 0 where the key and the value hold a NUL. *)
Example get_int64_zero_terminated :
  get_int64_from_attachment bytes_as_text nonempty_text
    [(terminated "sequence_number", terminated "0")] "sequence_number"
  = Returns (-1)
      [("2" ++ LF)%string; ("3" ++ LF)%string; ("sequence_number" ++ LF)%string;
       ("4" ++ LF)%string; ("5 Found 0" ++ LF)%string].
Proof. reflexivity. Qed.

(** C4 at the attachment [("sequence_number", "42")]. *)
Lemma get_int64_decimal_text_undefined_witness :
  get_int64_from_attachment bytes_as_text nonempty_text
    [(list_byte_of_string "sequence_number", list_byte_of_string "42")]
    "sequence_number" = Undefined.
Proof.
  apply (get_int64_decimal_text_undefined bytes_as_text nonempty_text
           "sequence_number" 42).
  - reflexivity.
  - left. split; reflexivity.
Defined.

(** The examples of the specification for the integers, where the key and
    the value hold a NUL. *)
Example get_int64_20_characters :
  exists out,
    get_int64_from_attachment bytes_as_text nonempty_text
      [(terminated "sequence_number", terminated "92233720368547758070")]
      "sequence_number" = Returns (-1) out.
Proof. eexists. reflexivity. Qed.

Example get_int64_trailing_junk :
  exists out,
    get_int64_from_attachment bytes_as_text nonempty_text
      [(terminated "sequence_number", terminated "12x")] "sequence_number"
    = Returns (-1) out.
Proof. eexists. reflexivity. Qed.

(** The largest 64 bit integer has 19 characters; with its NUL the value
    has 20 bytes, which is more than the 19 that are let through. *)
Example get_int64_max :
  exists out,
    get_int64_from_attachment bytes_as_text nonempty_text
      [(terminated "sequence_number", terminated "9223372036854775807")]
      "sequence_number" = Returns (-1) out.
Proof. eexists. reflexivity. Qed.

Example get_int64_18_digits :
  exists out,
    get_int64_from_attachment bytes_as_text nonempty_text
      [(terminated "sequence_number", terminated "922337203685477580")]
      "sequence_number" = Returns 922337203685477580 out.
Proof. eexists. reflexivity. Qed.

(** ** zenoh_router_check.cpp: the identity as text *)

Section zid_facts.

Lemma put_hex_byte (b : byte) :
  setfill_setw "0" 2 (put_hex (Byte.to_N b)) = two_hex_digits b.
Proof. destruct b; reflexivity. Qed.

Lemma strip_trailing_zeros_len (l : list byte) :
  forall (pre : list byte) (acc : nat),
    fold_left
      (fun len i => if Byte.eqb (nth i (pre ++ l) x00) x00 then len else (i + 1)%nat)
      (seq (List.length pre) (List.length l)) acc
    = match strip_trailing_zeros l with
      | [] => acc
      | r => (List.length pre + List.length r)%nat
      end.
Proof.
  induction l as [|b l IH]; intros pre acc.
  - reflexivity.
  - cbn [List.length seq fold_left strip_trailing_zeros].
    rewrite nth_middle.
    replace (pre ++ b :: l) with ((pre ++ [b]) ++ l) by (rewrite <- app_assoc; reflexivity).
    replace (S (List.length pre)) with (List.length (pre ++ [b]))
      by (rewrite length_app; cbn; lia).
    rewrite IH.
    destruct (strip_trailing_zeros l) as [|r0 r].
    + destruct (Byte.eqb b x00); cbn [List.length]; lia.
    + rewrite length_app. cbn [List.length]. lia.
Qed.

Lemma firstn_strip_trailing_zeros (l : list byte) :
  firstn (List.length (strip_trailing_zeros l)) l = strip_trailing_zeros l.
Proof.
  induction l as [|b l IH]; [reflexivity|].
  cbn [strip_trailing_zeros].
  destruct (strip_trailing_zeros l) as [|r0 r] eqn:E.
  - destruct (Byte.eqb b x00); reflexivity.
  - cbn [List.length firstn]. f_equal. exact IH.
Qed.

Lemma length_strip_trailing_zeros (l : list byte) :
  (List.length (strip_trailing_zeros l) <= List.length l)%nat.
Proof.
  induction l as [|b l IH]; cbn [strip_trailing_zeros List.length]; [lia|].
  destruct (strip_trailing_zeros l); [destruct (Byte.eqb b x00)|];
    cbn [List.length] in *; lia.
Qed.

Lemma append_empty_r (s : string) : (s ++ "")%string = s.
Proof. induction s as [|c s IH]; cbn [String.append]; congruence. Qed.

Lemma append_assoc (s t u : string) : ((s ++ t) ++ u = s ++ (t ++ u))%string.
Proof. induction s as [|c s IH]; cbn [String.append]; congruence. Qed.

Lemma render_snoc (l : list byte) (b : byte) (s : string) :
  (two_hex_digits b ++ render (rev l) = render (rev (l ++ [b])))%string.
Proof. rewrite rev_app_distr. reflexivity. Qed.

Lemma firstn_succ_snoc (l : list byte) :
  forall (i : nat) (d : byte),
    (i < List.length l)%nat -> firstn (S i) l = firstn i l ++ [nth i l d].
Proof.
  induction l as [|x l IH]; intros i d Hi; cbn [List.length] in Hi; [lia|].
  destruct i as [|i]; [reflexivity|].
  cbn [firstn nth app]. f_equal. apply IH. lia.
Qed.

Lemma ZidToStr_put_render (pid : z_id_t) (i : nat) :
  (i <= List.length (id pid))%nat ->
  forall ss, ZidToStr_put pid i ss = (ss ++ render (rev (firstn i (id pid))))%string.
Proof.
  induction i as [|i IH]; intros Hi ss.
  - cbn. symmetry. apply append_empty_r.
  - cbn [ZidToStr_put]. rewrite IH by lia.
    rewrite put_hex_byte, append_assoc. f_equal.
    unfold id_at.
    rewrite (render_snoc (firstn i (id pid)) (nth i (id pid) x00) "").
    rewrite (firstn_succ_snoc (id pid) i x00) by lia. reflexivity.
Qed.

Lemma ZidToStr_len_strip (pid : z_id_t) :
  List.length (id pid) = 16%nat ->
  ZidToStr_len pid = List.length (strip_trailing_zeros (id pid)).
Proof.
  intros H16. unfold ZidToStr_len, id_at.
  pose proof (strip_trailing_zeros_len (id pid) [] O) as H.
  cbn [app List.length] in H. rewrite H16 in H. rewrite H.
  destruct (strip_trailing_zeros (id pid)); reflexivity.
Qed.


End zid_facts.

(** ** zenoh_router_check.cpp: the router check *)

Section router_facts.

Lemma int_wrap_small (z : Z) : - 2147483648 <= z <= INT_MAX -> int_wrap z = z.
Proof.
  unfold int_wrap, INT_MAX. intros H.
  rewrite Z.mod_small by lia. lia.
Qed.

Lemma z_info_routers_zid_count (session : z_session_t) :
  forall ctx : Z,
    0 <= ctx ->
    ctx + Z.of_nat (List.length session) <= INT_MAX ->
    fst (z_info_routers_zid session callback ctx)
    = ctx + Z.of_nat (List.length session).
Proof.
  induction session as [|zid rest IH]; intros ctx H0 Hmax.
  - cbn. lia.
  - cbn [z_info_routers_zid callback List.length] in *.
    rewrite int_wrap_small by (unfold INT_MAX in *; lia).
    specialize (IH (ctx + 1)).
    destruct (z_info_routers_zid rest callback (ctx + 1)) as [c l].
    cbn [fst] in *. rewrite IH by lia. lia.
Qed.

Lemma reply_count_length (session : z_session_t) :
  Z.of_nat (List.length session) <= INT_MAX ->
  reply_count session = Z.of_nat (List.length session).
Proof.
  intros H. unfold reply_count.
  rewrite z_info_routers_zid_count by lia. lia.
Qed.

Lemma zenoh_router_check_ret (session : z_session_t) :
  fst (zenoh_router_check session)
  = if reply_count session =? 0 then RMW_RET_ERROR else RMW_RET_OK.
Proof.
  unfold zenoh_router_check, reply_count.
  destruct (z_info_routers_zid session callback 0) as [c l]. cbn [fst].
  destruct (c =? 0); reflexivity.
Qed.

(** C8: for a number of replies that an [int] holds, the counter read
    after [z_info_routers_zid] is the number of times the closure was
    called, [zenoh_router_check] returns [RMW_RET_OK] exactly when there
    was at least one reply, and [RMW_RET_ERROR] when there was none. *)
Theorem zenoh_router_check_iff_reply :
  forall session : z_session_t,
    Z.of_nat (List.length session) <= INT_MAX ->
    reply_count session = Z.of_nat (List.length session)
    /\ (fst (zenoh_router_check session) = RMW_RET_OK
        <-> (1 <= List.length session)%nat)
    /\ (List.length session = 0%nat ->
        fst (zenoh_router_check session) = RMW_RET_ERROR).
Proof.
  intros session Hmax.
  pose proof (reply_count_length session Hmax) as Hc.
  rewrite zenoh_router_check_ret, Hc.
  split; [reflexivity|]. split.
  - destruct (Z.eqb_spec (Z.of_nat (List.length session)) 0) as [E|E].
    + split; [discriminate | lia].
    + split; [lia | reflexivity].
  - intros ->. reflexivity.
Qed.

End router_facts.

(** ** rmw_context_impl_s.cpp: shutdown, discovery callback, subscription *)

Section context_facts.

Lemma shutdown_when_shut_down (d : Data) :
  is_shutdown_ d = true -> shutdown d = Done (RMW_RET_OK, d).
Proof. intros H. unfold shutdown. rewrite H. reflexivity. Qed.

Lemma shutdown_ok_is_shutdown (env : environment) (past : list event)
    (d d1 : Data) (tr : list event) :
  run env past (shutdown d) = ((RMW_RET_OK, d1), tr) ->
  is_shutdown_ d1 = true
  /\ (count is_undeclare tr <= 1)%nat
  /\ (count is_shm_drop tr <= 1)%nat
  /\ (count is_close tr <= 1)%nat.
Proof.
  unfold shutdown.
  destruct (is_shutdown_ d) eqn:Hs.
  - cbn. intros H. inversion H; subst. cbn. auto.
  - destruct (shm_provider_ d) as [p|] eqn:Hp; cbn; rewrite Hp; cbn;
      match goal with
      | |- context [negb (?r =? Z_OK)] => destruct (negb (r =? Z_OK))
      end;
      cbn; intros H; inversion H; subst; cbn; repeat split; lia.
Qed.

(** C5: after a [shutdown] that returned [RMW_RET_OK], another [shutdown]
    returns [RMW_RET_OK], leaves the record as it is and calls nothing,
    whatever the environment; so does the destructor.  The successful call
    itself undeclared the subscription, dropped the shared memory provider
    and closed the session at most once each. *)
Theorem shutdown_twice :
  forall (env : environment) (past : list event) (d d1 : Data) (tr1 : list event),
    run env past (shutdown d) = ((RMW_RET_OK, d1), tr1) ->
    (forall env' past', run env' past' (shutdown d1) = ((RMW_RET_OK, d1), []))
    /\ (forall env' past', run env' past' (Data_dtor d1) = (d1, []))
    /\ (count is_undeclare tr1 <= 1)%nat
    /\ (count is_shm_drop tr1 <= 1)%nat
    /\ (count is_close tr1 <= 1)%nat.
Proof.
  intros env past d d1 tr1 H.
  destruct (shutdown_ok_is_shutdown env past d d1 tr1 H) as (Hs & Hcounts).
  pose proof (shutdown_when_shut_down d1 Hs) as Hd.
  split; [|split; [|exact Hcounts]].
  - intros env' past'. rewrite Hd. reflexivity.
  - intros env' past'. unfold Data_dtor. rewrite Hd. reflexivity.
Qed.

(** C6: when [z_close] fails in a [shutdown] of a context that is not shut
    down, the call returns [RMW_RET_ERROR] and [is_shutdown_] stays
    [false], although the subscription was undeclared, and the shared
    memory provider dropped if there is one, before the session was
    closed. *)
Theorem shutdown_close_failure :
  forall (env : environment) (past : list event) (d d' : Data)
         (ret : rmw_ret_t) (tr : list event),
    is_shutdown_ d = false ->
    run env past (shutdown d) = ((ret, d'), tr) ->
    existsb is_failed_close tr = true ->
    ret = RMW_RET_ERROR
    /\ is_shutdown_ d' = false
    /\ exists r0 r,
        r <> Z_OK
        /\ tr = Event _ (z_undeclare_subscriber (graph_subscriber_ d)) r0
                :: match shm_provider_ d with
                   | Some p => [Event _ (z_drop_shm_provider p) tt]
                   | None => []
                   end
                ++ [Event _ (z_close (session_ d)) r;
                    Event _ (RMW_SET_ERROR_MSG "Error while closing zenoh session") tt].
Proof.
  intros env past d d' ret tr Hs. unfold shutdown. rewrite Hs.
  destruct (shm_provider_ d) as [p|] eqn:Hp; cbn; rewrite Hp; cbn;
    repeat match goal with
           | |- context [env ?h unit ?c] => destruct (env h unit c)
           end;
    match goal with
    | |- context [negb (?r =? Z_OK)] => destruct (Z.eqb_spec r Z_OK) as [E|E]
    end;
    cbn; try rewrite E; cbn;
    repeat match goal with
           | |- context [env ?h unit ?c] => destruct (env h unit c)
           end;
    intros H Hf; inversion H; subst; clear H;
    cbn in Hf; try rewrite E in Hf; try discriminate.
  all: split; [reflexivity|]; split; [exact Hs|]; eexists _, _; split; [exact E|reflexivity].
Qed.

(** C7: with [is_shutdown_] set, [graph_sub_data_handler] is the program
    that returns at once: in every environment it calls nothing (neither
    [parse_put], [parse_del] nor the guard condition) and the record is
    handed back as it was. *)
Theorem graph_sub_data_handler_after_shutdown :
  forall (sample : z_loaned_sample_t) (d : Data),
    is_shutdown_ d = true ->
    graph_sub_data_handler sample (Some d) = Done (Some d)
    /\ (forall env past,
           run env past (graph_sub_data_handler sample (Some d)) = (Some d, [])).
Proof.
  intros sample d Hs.
  assert (H : graph_sub_data_handler sample (Some d) = Done (Some d)).
  { unfold graph_sub_data_handler. rewrite Hs. reflexivity. }
  split; [exact H|].
  intros env past. rewrite H. reflexivity.
Qed.

Lemma subscribe_to_ros_graph_ok_initialized (env : environment)
    (past : list event) (d d1 : Data) (tr : list event) :
  run env past (subscribe_to_ros_graph d) = ((RMW_RET_OK, d1), tr) ->
  is_initialized_ d1 = true.
Proof.
  unfold subscribe_to_ros_graph.
  destruct (is_initialized_ d) eqn:Hi; cbn.
  - intros H. inversion H; subst. exact Hi.
  - match goal with
    | |- context [negb (fst ?r =? Z_OK)] => destruct (negb (fst r =? Z_OK))
    end; cbn; intros H; inversion H; subst. reflexivity.
Qed.

(** C10: with [is_initialized_] set, [subscribe_to_ros_graph] returns
    [RMW_RET_OK] at once: in every environment it calls nothing (no second
    subscription is declared) and the record is handed back as it was. *)
Theorem subscribe_to_ros_graph_idempotent :
  forall d : Data,
    is_initialized_ d = true ->
    subscribe_to_ros_graph d = Done (RMW_RET_OK, d)
    /\ (forall env past,
           run env past (subscribe_to_ros_graph d) = ((RMW_RET_OK, d), [])).
Proof.
  intros d Hi.
  assert (H : subscribe_to_ros_graph d = Done (RMW_RET_OK, d)).
  { unfold subscribe_to_ros_graph. rewrite Hi. reflexivity. }
  split; [exact H|].
  intros env past. rewrite H. reflexivity.
Qed.

End context_facts.

(** ** Examples and instances for the router check and the context *)

Example ZidToStr_interior_zero :
  ZidToStr (mk_zid ([x01; x00; xab] ++ repeat x00 13)) = "ab0001".
Proof. reflexivity. Qed.


Example zenoh_router_check_no_reply :
  zenoh_router_check []
  = (RMW_RET_ERROR,
     [(LOG_ERROR, "ZenouRouterCheck", "No Zenoh router connected to the session")]).
Proof. reflexivity. Qed.

Example zenoh_router_check_two_replies :
  zenoh_router_check [mk_zid (x0f :: repeat x00 15); mk_zid (x10 :: repeat x00 15)]
  = (RMW_RET_OK,
     [(LOG_INFO, "ZenouRouterCheck",
       "A Zenoh router connected to the session with id '0f'");
      (LOG_INFO, "ZenouRouterCheck",
       "A Zenoh router connected to the session with id '10'");
      (LOG_INFO, "ZenouRouterCheck",
       "There are 2 Zenoh routers connected to the session")]).
Proof. reflexivity. Qed.

(** C8 at a session with two routers. *)
Lemma zenoh_router_check_iff_reply_witness :
  reply_count [mk_zid (x0f :: repeat x00 15); mk_zid (x10 :: repeat x00 15)] = 2
  /\ fst (zenoh_router_check
            [mk_zid (x0f :: repeat x00 15); mk_zid (x10 :: repeat x00 15)])
     = RMW_RET_OK.
Proof.
  assert (Hmax : Z.of_nat (List.length
                   [mk_zid (x0f :: repeat x00 15); mk_zid (x10 :: repeat x00 15)])
                 <= INT_MAX)
    by (unfold INT_MAX; cbn; lia).
  split.
  - exact (proj1 (zenoh_router_check_iff_reply _ Hmax)).
  - apply (proj1 (proj2 (zenoh_router_check_iff_reply _ Hmax))). cbn. lia.
Defined.

Example shutdown_trace :
  run all_ok [] (shutdown subscribed_Data)
  = ((RMW_RET_OK, closed_Data),
     [Event _ (z_undeclare_subscriber (Some 7%nat)) Z_OK;
      Event _ (z_drop_shm_provider (Some 2%nat)) tt;
      Event _ (z_close (Some 1%nat)) Z_OK]).
Proof. reflexivity. Qed.

(** C5 at the context [subscribed_Data], shut down in [all_ok]. *)
Lemma shutdown_twice_witness :
  (forall env' past', run env' past' (shutdown closed_Data)
                      = ((RMW_RET_OK, closed_Data), []))
  /\ (forall env' past', run env' past' (Data_dtor closed_Data) = (closed_Data, []))
  /\ (count is_undeclare (snd (run all_ok [] (shutdown subscribed_Data))) <= 1)%nat
  /\ (count is_shm_drop (snd (run all_ok [] (shutdown subscribed_Data))) <= 1)%nat
  /\ (count is_close (snd (run all_ok [] (shutdown subscribed_Data))) <= 1)%nat.
Proof.
  exact (shutdown_twice all_ok [] subscribed_Data closed_Data
           (snd (run all_ok [] (shutdown subscribed_Data))) eq_refl).
Defined.

(** C6 at the context [subscribed_Data], shut down in [close_fails]. *)
Lemma shutdown_close_failure_witness :
  fst (fst (run close_fails [] (shutdown subscribed_Data))) = RMW_RET_ERROR
  /\ is_shutdown_ (snd (fst (run close_fails [] (shutdown subscribed_Data)))) = false.
Proof.
  pose proof (shutdown_close_failure close_fails [] subscribed_Data
                (snd (fst (run close_fails [] (shutdown subscribed_Data))))
                (fst (fst (run close_fails [] (shutdown subscribed_Data))))
                (snd (run close_fails [] (shutdown subscribed_Data)))
                eq_refl eq_refl eq_refl) as H.
  exact (conj (proj1 H) (proj1 (proj2 H))).
Defined.

(** C7 at a put sample that arrives for [closed_Data]. *)
Lemma graph_sub_data_handler_after_shutdown_witness :
  graph_sub_data_handler (mk_sample "@ros2_lv/0/x" Z_SAMPLE_KIND_PUT) (Some closed_Data)
  = Done (Some closed_Data).
Proof.
  exact (proj1 (graph_sub_data_handler_after_shutdown
                  (mk_sample "@ros2_lv/0/x" Z_SAMPLE_KIND_PUT) closed_Data eq_refl)).
Defined.

Example graph_sub_data_handler_put :
  run all_ok [] (graph_sub_data_handler
                   (mk_sample "@ros2_lv/0/x" Z_SAMPLE_KIND_PUT) (Some subscribed_Data))
  = (Some subscribed_Data,
     [Event _ (GraphCache_parse_put 3 "@ros2_lv/0/x") tt;
      Event _ (rmw_trigger_guard_condition 4) RMW_RET_OK]).
Proof. reflexivity. Qed.

(** C10 at the context [subscribed_Data]. *)
Lemma subscribe_to_ros_graph_idempotent_witness :
  subscribe_to_ros_graph subscribed_Data = Done (RMW_RET_OK, subscribed_Data).
Proof.
  exact (proj1 (subscribe_to_ros_graph_idempotent subscribed_Data eq_refl)).
Defined.

(** * Further properties of the code *)

Import libc_more zid_text rmw_context_impl_s_api rmw_context_impl_s_init.

(** ** attachment_helpers.cpp: what a lookup can return *)

Section lookup_facts.

Variable des : z_bytes -> z_owned_string_t.
Variable chk : z_owned_string_t -> bool.

Lemma get_attachment_undefined_inv (a : attachment) (key : string) :
  get_attachment des chk a key = Undefined ->
  exists pre post k v,
    a = pre ++ (k, v) :: post
    /\ Forall (passed_over des key) pre
    /\ (c_string_at (des k) = None
        \/ (stops_at des key (k, v) /\ c_string_at (des v) = None)).
Proof.
  destruct a as [|p a'].
  - discriminate.
  - remember (p :: a') as a eqn:Ea.
    assert (Hne : a <> []) by (subst a; discriminate).
    pose proof (get_attachment_loop_scan des a key) as Hs.
    inversion Hs as [Hall Heq|pre post k v tv Ha Hpre Hstop Hv Heq
                    |pre post k v Ha Hpre Hbad Heq].
    + rewrite (get_attachment_not_found des chk a key Hne Hall). discriminate.
    + rewrite Ha, (get_attachment_found des chk pre post k v key tv Hpre Hstop Hv).
      discriminate.
    + intros _. exists pre, post, k, v. auto.
Qed.


(** X1: what a lookup can do.  When it returns [true], the scan has passed
    over the pairs before a pair at which it stopped, the value written is
    the value of that pair, [z_string_check] accepts it, its data holds a
    NUL, and what was printed is what the scan prints on its way.  When it
    returns [false], either nothing was written and the scan has passed
    over every pair, or the value of the pair at which the scan stopped was
    written and [z_string_check] refuses it.  When its behaviour is
    undefined, the scan has reached a pair with no NUL in the data of its
    key, or has stopped at a pair with no NUL in the data of its value. *)
Theorem get_attachment_sound :
  forall (a : attachment) (key : string),
    (forall val out,
        get_attachment des chk a key = Returns (true, val) out ->
        exists pre post k v tv,
          a = pre ++ (k, v) :: post
          /\ Forall (passed_over des key) pre
          /\ stops_at des key (k, v)
          /\ val = Some (des v) /\ chk (des v) = true
          /\ c_string_at (des v) = Some tv
          /\ out = passed_output des pre ++ found_output key tv)
    /\ (forall val out,
           get_attachment des chk a key = Returns (false, val) out ->
           (val = None /\ Forall (passed_over des key) a)
           \/ exists pre post k v,
                a = pre ++ (k, v) :: post
                /\ Forall (passed_over des key) pre
                /\ stops_at des key (k, v)
                /\ val = Some (des v) /\ chk (des v) = false)
    /\ (get_attachment des chk a key = Undefined ->
        exists pre post k v,
          a = pre ++ (k, v) :: post
          /\ Forall (passed_over des key) pre
          /\ (c_string_at (des k) = None
              \/ (stops_at des key (k, v) /\ c_string_at (des v) = None))).
Proof.
  intros a key. split; [|split].
  - intros val out H.
    destruct (get_attachment_inv des chk a key true val out H)
      as [(F & _)|(pre & post & k & v & tv & Ha & Hpre & Hs & Hv & Hb & Hw & Ho)].
    + discriminate F.
    + exists pre, post, k, v, tv. repeat split; auto.
  - intros val out H.
    destruct (get_attachment_inv des chk a key false val out H)
      as [(_ & Hw & [[-> _]|(_ & Hall & _)])
         |(pre & post & k & v & tv & Ha & Hpre & Hs & Hv & Hb & Hw & Ho)].
    + left. split; [exact Hw | constructor].
    + left. split; assumption.
    + right. exists pre, post, k, v. repeat split; auto.
  - apply get_attachment_undefined_inv.
Qed.



End lookup_facts.

(** ** attachment_helpers.cpp: what [strtol] makes of a value *)

Section strtol_shape.

Lemma digits_uint_then (d : Decimal.uint) (rest : string) :
  no_digit_ahead rest = true ->
  forall acc,
    digits (NilEmpty.string_of_uint d ++ rest)%string acc
    = (uint_val d acc, Decimal.nb_digits d).
Proof.
  intros Hrest.
  induction d; intros acc;
    cbn [NilEmpty.string_of_uint String.append digits Decimal.nb_digits uint_val].
  1: { destruct rest as [|c rest]; [reflexivity|].
       cbn [digits]. cbn [no_digit_ahead] in Hrest.
       destruct (isdigit c); [discriminate | reflexivity]. }
  all: match goal with
       | |- context [isdigit ?c] => change (isdigit c) with true
       end;
       cbv iota;
       match goal with
       | |- context [char_code ?c - 48] =>
           let v := eval vm_compute in (char_code c - 48) in
           change (char_code c - 48) with v
       end;
       rewrite IHd; reflexivity.
Qed.

Lemma skip_space_all (ws s : string) :
  all_space ws = true ->
  skip_space (ws ++ s)%string = (String.length ws + skip_space s)%nat.
Proof.
  induction ws as [|c ws IH]; cbn [all_space String.append skip_space String.length].
  - reflexivity.
  - intros H. apply andb_prop in H. destruct H as [Hc Hws].
    rewrite Hc, IH by exact Hws. reflexivity.
Qed.

Lemma advance_append (ws s : string) :
  advance (String.length ws) (ws ++ s)%string = s.
Proof. induction ws as [|c ws IH]; cbn; auto. Qed.

Lemma strtol_shape (ws sg rest : string) (neg : bool) (d : Decimal.uint) :
  all_space ws = true ->
  sign_text sg neg ->
  d <> Decimal.Nil ->
  no_digit_ahead rest = true ->
  strtol (ws ++ sg ++ NilEmpty.string_of_uint d ++ rest)%string
  = clamp_long (if neg then - Z.of_N (Pos.of_uint d) else Z.of_N (Pos.of_uint d))
      (String.length ws + String.length sg + Decimal.nb_digits d).
Proof.
  intros Hws Hsg Hd Hrest.
  destruct (string_of_uint_head d Hd) as (c & s & Hs & Hc).
  destruct (isdigit_plain c Hc) as (Hsp & Hm & Hp).
  destruct (nb_digits_pos d Hd) as (n & Hn).
  unfold strtol.
  assert (Hskip : skip_space (ws ++ sg ++ NilEmpty.string_of_uint d ++ rest)%string
                  = String.length ws).
  { rewrite skip_space_all by exact Hws.
    destruct Hsg; cbn [String.append skip_space].
    - rewrite Hs. cbn [String.append skip_space]. rewrite Hsp. apply Nat.add_0_r.
    - change (isspace "+") with false. apply Nat.add_0_r.
    - change (isspace "-") with false. apply Nat.add_0_r. }
  rewrite Hskip, advance_append.
  destruct Hsg; cbn [String.append sign String.length].
  - rewrite Hs. cbn [String.append sign]. rewrite Hm, Hp. cbn [advance].
    change (String c (s ++ rest)%string) with (String c s ++ rest)%string.
    rewrite <- Hs.
    rewrite digits_uint_then by exact Hrest. rewrite uint_val_0, Hn.
    unfold clamp_long. reflexivity.
  - change (Ascii.eqb "+" "-") with false. change (Ascii.eqb "+" "+") with true.
    cbv iota. cbn [advance].
    rewrite digits_uint_then by exact Hrest. rewrite uint_val_0, Hn.
    unfold clamp_long. reflexivity.
  - change (Ascii.eqb "-" "-") with true. cbv iota. cbn [advance].
    rewrite digits_uint_then by exact Hrest. rewrite uint_val_0, Hn.
    unfold clamp_long. reflexivity.
Qed.

End strtol_shape.

Section int64_shape.

Lemma deref_append (a b : string) :
  deref (a ++ b)%string (String.length a) = deref b 0.
Proof.
  unfold deref. induction a as [|c a IH]; cbn [String.append String.length String.get].
  - reflexivity.
  - exact IH.
Qed.

Lemma length_append (a b : string) :
  String.length (a ++ b)%string = (String.length a + String.length b)%nat.
Proof. induction a as [|c a IH]; cbn; [reflexivity | rewrite IH; reflexivity]. Qed.


(** What is made of a string that starts like a number: white space, a
    sign or none, digits, and then something that is no digit. *)
Lemma converted_shape (ws sg rest : string) (neg : bool) (d : Decimal.uint) :
  all_space ws = true ->
  sign_text sg neg ->
  d <> Decimal.Nil ->
  no_digit_ahead rest = true ->
  let text := (ws ++ sg ++ NilEmpty.string_of_uint d ++ rest)%string in
  let v := if neg then - Z.of_N (Pos.of_uint d) else Z.of_N (Pos.of_uint d) in
  converted text
  = if (String.length text <=? 19)%nat && negb (v =? 0)
       && (LONG_MIN <=? v) && (v <=? LONG_MAX) && Ascii.eqb (deref rest 0) NUL
    then v else -1.
Proof.
  intros Hws Hsg Hd Hrest text v.
  unfold converted, z_string_len.
  destruct (nb_digits_pos d Hd) as (n & Hn).
  assert (Hlen : String.length text
                 = (String.length ws + String.length sg + Decimal.nb_digits d
                    + String.length rest)%nat).
  { unfold text. rewrite !length_append, length_string_of_uint. lia. }
  destruct (Nat.ltb_spec (String.length text) 1) as [L|_]; [lia|].
  destruct (Nat.ltb_spec 19 (String.length text)) as [G|G];
    destruct (Nat.leb_spec (String.length text) 19) as [G'|G']; try lia;
    cbn [andb]; [reflexivity|].
  assert (Hbuf : int64_str text
                 = (ws ++ sg ++ NilEmpty.string_of_uint d
                    ++ (rest ++ String NUL ""))%string).
  { unfold int64_str, z_string_data, text. rewrite !append_assoc. reflexivity. }
  assert (Hrest' : no_digit_ahead (rest ++ String NUL "")%string = true).
  { destruct rest; [reflexivity | exact Hrest]. }
  pose proof (strtol_shape ws sg _ neg d Hws Hsg Hd Hrest') as Hst.
  rewrite <- Hbuf in Hst. fold v in Hst.
  cbv zeta. rewrite Hst.
  assert (Hderef : deref (int64_str text)
                     (String.length ws + String.length sg + Decimal.nb_digits d)
                   = deref (rest ++ String NUL "")%string 0).
  { rewrite Hbuf.
    replace (ws ++ sg ++ NilEmpty.string_of_uint d ++ rest ++ String NUL "")%string
      with ((ws ++ sg ++ NilEmpty.string_of_uint d) ++ (rest ++ String NUL ""))%string
      by (rewrite !append_assoc; reflexivity).
    rewrite <- (length_string_of_uint d), <- !length_append, <- !append_assoc.
    rewrite append_assoc. apply deref_append. }
  assert (Hnul : deref (rest ++ String NUL "")%string 0 = deref rest 0).
  { destruct rest; reflexivity. }
  unfold clamp_long.
  destruct (Z.ltb_spec LONG_MAX v) as [Hhi|Hhi]; cbn [num endptr errno];
    [|destruct (Z.ltb_spec v LONG_MIN) as [Hlo|Hlo]; cbn [num endptr errno]];
    rewrite Hderef, Hnul, Hn, Nat.add_succ_r; cbn [Nat.eqb].
  - replace (v <=? LONG_MAX) with false by (symmetry; apply Z.leb_gt; lia).
    rewrite !andb_false_r. cbn [andb].
    change (LONG_MAX =? 0) with false. change (ERANGE =? 0) with false.
    destruct (Ascii.eqb (deref rest 0) NUL); reflexivity.
  - replace (LONG_MIN <=? v) with false by (symmetry; apply Z.leb_gt; lia).
    rewrite !andb_false_r. cbn [andb].
    change (LONG_MIN =? 0) with false. change (ERANGE =? 0) with false.
    destruct (Ascii.eqb (deref rest 0) NUL); reflexivity.
  - replace (LONG_MIN <=? v) with true by (symmetry; apply Z.leb_le; lia).
    replace (v <=? LONG_MAX) with true by (symmetry; apply Z.leb_le; lia).
    rewrite !andb_true_r.
    destruct (v =? 0); cbn [negb]; [reflexivity|].
    destruct (Ascii.eqb (deref rest 0) NUL); reflexivity.
Qed.

End int64_shape.

Lemma decimal_text_shape (n : Z) :
  exists sg neg d,
    sign_text sg neg /\ sg <> "+" /\ d <> Decimal.Nil
    /\ decimal_text n = (sg ++ NilEmpty.string_of_uint d)%string
    /\ n = (if neg then - Z.of_N (Pos.of_uint d) else Z.of_N (Pos.of_uint d)).
Proof.
  destruct n as [|p|p].
  - exists "", false, (Decimal.D0 Decimal.Nil).
    repeat split; try constructor; discriminate.
  - exists "", false, (Pos.to_uint p).
    split; [constructor|]. split; [discriminate|].
    split; [apply Unsigned.to_uint_nonnil|]. split; [reflexivity|].
    rewrite Unsigned.of_to. reflexivity.
  - exists "-", true, (Pos.to_uint p).
    split; [constructor|]. split; [discriminate|].
    split; [apply Unsigned.to_uint_nonnil|]. split; [reflexivity|].
    rewrite Unsigned.of_to. reflexivity.
Qed.

Section int64_more.

Variable des : z_bytes -> z_owned_string_t.
Variable chk : z_owned_string_t -> bool.

(** What is made of the canonical text of [n], white space before it and
    [rest] after it. *)
Lemma converted_decimal (ws rest : string) (n : Z) :
  all_space ws = true ->
  no_digit_ahead rest = true ->
  converted (ws ++ decimal_text n ++ rest)%string
  = if (String.length (ws ++ decimal_text n ++ rest) <=? 19)%nat
       && negb (n =? 0) && (LONG_MIN <=? n) && (n <=? LONG_MAX)
       && Ascii.eqb (deref rest 0) NUL
    then n else -1.
Proof.
  intros Hws Hrest.
  destruct (decimal_text_shape n) as (sg & neg & d & Hsg & _ & Hd & -> & Hn).
  rewrite append_assoc.
  rewrite (converted_shape ws sg rest neg d Hws Hsg Hd Hrest).
  cbv zeta. rewrite <- Hn. reflexivity.
Qed.


(** X6: where the lookup returns a number followed by a character that is
    neither a digit nor a NUL, the result is the sentinel. *)
Theorem get_int64_trailing_characters :
  forall (a : attachment) (name junk : string) (c : ascii) (n : Z)
         (out : list string),
    get_attachment des chk a name
    = Returns (true, Some (decimal_text n ++ String c junk)%string) out ->
    isdigit c = false ->
    c <> NUL ->
    get_int64_from_attachment des chk a name = Returns (-1) out.
Proof.
  intros a name junk c n out Hget Hdig Hnul.
  assert (Hrest : no_digit_ahead (String c junk) = true).
  { cbn [no_digit_ahead]. rewrite Hdig. reflexivity. }
  rewrite (get_int64_found des chk a name _ out Hget). f_equal.
  rewrite (converted_decimal "" (String c junk) n eq_refl Hrest
             : converted (decimal_text n ++ String c junk)%string = _).
  replace (Ascii.eqb (deref (String c junk) 0) NUL) with false.
  - rewrite !andb_false_r. reflexivity.
  - symmetry. apply Ascii.eqb_neq. exact Hnul.
Qed.

(** X7: where the lookup returns the canonical text of a nonzero 64 bit
    number with a NUL after it, the number is the result, whatever follows
    the NUL, as long as the value has at most 19 bytes, the NUL and what
    follows it counted: a text of 19 characters is too long. *)
Theorem get_int64_ignores_after_nul :
  forall (a : attachment) (name junk : string) (n : Z) (out : list string),
    get_attachment des chk a name
    = Returns (true, Some (decimal_text n ++ String NUL junk)%string) out ->
    n <> 0 -> INT64_MIN <= n <= INT64_MAX ->
    (get_int64_from_attachment des chk a name
     = Returns (if (String.length (decimal_text n ++ String NUL junk) <=? 19)%nat
                then n else -1) out)
    /\ ((19 <= String.length (decimal_text n))%nat ->
        get_int64_from_attachment des chk a name = Returns (-1) out).
Proof.
  intros a name junk n out Hget Hn Hrange.
  assert (E : get_int64_from_attachment des chk a name
              = Returns (if (String.length (decimal_text n ++ String NUL junk) <=? 19)%nat
                         then n else -1) out).
  { rewrite (get_int64_found des chk a name _ out Hget). f_equal.
    rewrite (converted_decimal "" (String NUL junk) n eq_refl eq_refl
               : converted (decimal_text n ++ String NUL junk)%string = _).
    cbn [String.append].
    replace (n =? 0) with false by (symmetry; apply Z.eqb_neq; exact Hn).
    unfold INT64_MIN, INT64_MAX in Hrange.
    replace (LONG_MIN <=? n) with true by (symmetry; apply Z.leb_le; unfold LONG_MIN; lia).
    replace (n <=? LONG_MAX) with true by (symmetry; apply Z.leb_le; unfold LONG_MAX; lia).
    change (Ascii.eqb (deref (String NUL junk) 0) NUL) with true.
    rewrite !andb_true_r. reflexivity. }
  split; [exact E|].
  intros Hlen. rewrite E.
  destruct (Nat.leb_spec (String.length (decimal_text n ++ String NUL junk)) 19)
    as [L|L]; [|reflexivity].
  rewrite length_append in L. cbn [String.length] in L. lia.
Qed.

(** X8: where the lookup returns white space, the canonical text of a
    nonzero 64 bit number and a NUL, the white space is skipped, and so is
    a plus sign before a positive number. *)
Theorem get_int64_leading_space_and_plus :
  forall (a : attachment) (name ws junk : string) (n : Z) (out : list string),
    all_space ws = true ->
    n <> 0 -> INT64_MIN <= n <= INT64_MAX ->
    (forall text, text = (ws ++ decimal_text n ++ String NUL junk)%string ->
                  get_attachment des chk a name = Returns (true, Some text) out ->
                  (String.length text <= 19)%nat ->
                  get_int64_from_attachment des chk a name = Returns n out)
    /\ (forall text, text = (ws ++ "+" ++ decimal_text n ++ String NUL junk)%string ->
                     0 < n ->
                     get_attachment des chk a name = Returns (true, Some text) out ->
                     (String.length text <= 19)%nat ->
                     get_int64_from_attachment des chk a name = Returns n out).
Proof.
  intros a name ws junk n out Hws Hn Hrange.
  unfold INT64_MIN, INT64_MAX in Hrange.
  assert (Hlo : (LONG_MIN <=? n) = true) by (apply Z.leb_le; unfold LONG_MIN; lia).
  assert (Hhi : (n <=? LONG_MAX) = true) by (apply Z.leb_le; unfold LONG_MAX; lia).
  assert (Hnz : (n =? 0) = false) by (apply Z.eqb_neq; exact Hn).
  split.
  - intros text -> Hget Hlen.
    rewrite (get_int64_found des chk a name _ out Hget). f_equal.
    rewrite (converted_decimal ws (String NUL junk) n Hws eq_refl).
    rewrite Hnz, Hlo, Hhi.
    replace (_ <=? 19)%nat with true by (symmetry; apply Nat.leb_le; exact Hlen).
    reflexivity.
  - intros text -> Hpos Hget Hlen.
    destruct n as [|p|p]; try lia.
    rewrite (get_int64_found des chk a name _ out Hget). f_equal.
    change (decimal_text (Z.pos p)) with (NilEmpty.string_of_uint (Pos.to_uint p)) in *.
    rewrite (converted_shape ws "+" (String NUL junk) false (Pos.to_uint p)
               Hws sign_plus (Unsigned.to_uint_nonnil p) eq_refl).
    cbv zeta. rewrite Unsigned.of_to. cbn [Z.of_N].
    rewrite Hnz, Hlo, Hhi.
    replace (_ <=? 19)%nat with true by (symmetry; apply Nat.leb_le; exact Hlen).
    reflexivity.
Qed.


End int64_more.

(** ** zenoh_router_check.cpp: the text of an identity and the log *)

Section zid_text_facts.

Lemma strip_trailing_zeros_pad (l : list byte) :
  l = strip_trailing_zeros l
      ++ repeat x00 (List.length l - List.length (strip_trailing_zeros l)).
Proof.
  induction l as [|b l IH]; [reflexivity|].
  cbn [strip_trailing_zeros].
  destruct (strip_trailing_zeros l) as [|r0 r] eqn:E.
  - cbn [List.length app] in IH. rewrite Nat.sub_0_r in IH.
    destruct (Byte.eqb b x00) eqn:Hb.
    + apply Byte.byte_dec_bl in Hb. subst b.
      cbn [List.length app Nat.sub repeat]. f_equal. exact IH.
    + cbn [List.length app]. rewrite Nat.sub_succ, Nat.sub_0_r. f_equal. exact IH.
  - cbn [List.length app Nat.sub]. f_equal. exact IH.
Qed.

Lemma byte_of_two_hex_digits (b : byte) (s : string) :
  parse_hex_bytes (two_hex_digits b ++ s)%string = b :: parse_hex_bytes s.
Proof.
  unfold two_hex_digits. cbn [String.append parse_hex_bytes]. f_equal.
  destruct b; reflexivity.
Qed.

Lemma parse_render (l : list byte) : parse_hex_bytes (render l) = l.
Proof.
  unfold render. induction l as [|b l IH]; [reflexivity|].
  cbn [map fold_right]. rewrite byte_of_two_hex_digits. f_equal. exact IH.
Qed.

Lemma length_render (l : list byte) :
  String.length (render l) = (2 * List.length l)%nat.
Proof.
  unfold render. induction l as [|b l IH]; [reflexivity|].
  cbn [map fold_right List.length]. unfold two_hex_digits at 1.
  cbn [String.append String.length]. rewrite IH. lia.
Qed.

Lemma two_hex_digits_lower (b : byte) :
  forallb is_lower_hex (list_ascii_of_string (two_hex_digits b)) = true.
Proof. destruct b; reflexivity. Qed.

Lemma lower_hex_render (l : list byte) :
  forallb is_lower_hex (list_ascii_of_string (render l)) = true.
Proof.
  unfold render. induction l as [|b l IH]; [reflexivity|].
  cbn [map fold_right].
  pose proof (two_hex_digits_lower b) as Hb. unfold two_hex_digits in *.
  cbn [String.append list_ascii_of_string forallb] in *.
  rewrite IH, !andb_true_r in *. exact Hb.
Qed.

Lemma ZidToStr_eq_spec (pid : z_id_t) :
  List.length (id pid) = 16%nat -> ZidToStr pid = ZidToStr_spec pid.
Proof.
  intros H16.
  unfold ZidToStr, ZidToStr_spec. rewrite (ZidToStr_len_strip pid H16).
  destruct (List.length (strip_trailing_zeros (id pid))) as [|n] eqn:L.
  - apply length_zero_iff_nil in L. rewrite L. reflexivity.
  - rewrite <- L.
    rewrite ZidToStr_put_render by apply length_strip_trailing_zeros.
    rewrite firstn_strip_trailing_zeros. reflexivity.
Qed.

(** X9: the text of an identity of 16 bytes has two characters for every
    byte up to the last one that is not zero, so at most 32, and all of
    them are digits or letters from a to f. *)
Theorem ZidToStr_text :
  forall pid : z_id_t,
    List.length (id pid) = 16%nat ->
    String.length (ZidToStr pid)
    = (2 * List.length (strip_trailing_zeros (id pid)))%nat
    /\ (String.length (ZidToStr pid) <= 32)%nat
    /\ forallb is_lower_hex (list_ascii_of_string (ZidToStr pid)) = true.
Proof.
  intros pid H16.
  rewrite (ZidToStr_eq_spec pid H16). unfold ZidToStr_spec.
  rewrite length_render, length_rev.
  pose proof (length_strip_trailing_zeros (id pid)) as Hle.
  split; [reflexivity|]. split; [lia|]. apply lower_hex_render.
Qed.

(** X10: the identity can be read back from its text, so two identities of
    16 bytes with the same text are the same. *)
Theorem ZidToStr_read_back :
  forall pid : z_id_t,
    List.length (id pid) = 16%nat ->
    zid_of_text (ZidToStr pid) = id pid
    /\ (forall qid : z_id_t,
           List.length (id qid) = 16%nat ->
           ZidToStr pid = ZidToStr qid -> id pid = id qid).
Proof.
  assert (Hback : forall pid : z_id_t,
             List.length (id pid) = 16%nat -> zid_of_text (ZidToStr pid) = id pid).
  { intros pid H16. rewrite (ZidToStr_eq_spec pid H16).
    unfold zid_of_text, ZidToStr_spec.
    rewrite parse_render, rev_involutive, <- H16.
    symmetry. apply strip_trailing_zeros_pad. }
  intros pid H16. split; [apply Hback, H16|].
  intros qid Hq Heq.
  rewrite <- (Hback pid H16), <- (Hback qid Hq), Heq. reflexivity.
Qed.

End zid_text_facts.

Section router_log_facts.

Lemma z_info_routers_zid_log (session : z_session_t) :
  forall ctx : Z,
    snd (z_info_routers_zid session callback ctx) = map router_line session.
Proof.
  induction session as [|zid rest IH]; intros ctx; [reflexivity|].
  cbn [z_info_routers_zid callback map].
  specialize (IH (int_wrap (ctx + 1))).
  destruct (z_info_routers_zid rest callback (int_wrap (ctx + 1))) as [c l].
  cbn [snd] in *. rewrite IH. reflexivity.
Qed.

(** X11: the check logs one line per reply, in the order of the replies,
    with the text of the identity, and then one more line: an error
    without a count when there was no reply, else the number of replies. *)
Theorem zenoh_router_check_log :
  forall session : z_session_t,
    Z.of_nat (List.length session) <= INT_MAX ->
    snd (zenoh_router_check session)
    = map router_line session
      ++ [match session with
          | [] => (LOG_ERROR, "ZenouRouterCheck",
                   "No Zenoh router connected to the session")
          | _ :: _ =>
              (LOG_INFO, "ZenouRouterCheck",
               "There are " ++ decimal_text (Z.of_nat (List.length session))
               ++ " Zenoh routers connected to the session")%string
          end].
Proof.
  intros session Hmax.
  pose proof (reply_count_length session Hmax) as Hc.
  pose proof (z_info_routers_zid_log session 0) as Hl.
  unfold zenoh_router_check, reply_count in *.
  destruct (z_info_routers_zid session callback 0) as [c l].
  cbn [fst snd] in *. subst c l.
  destruct session as [|zid rest]; [reflexivity|].
  destruct (Z.eqb_spec (Z.of_nat (List.length (zid :: rest))) 0) as [E|E].
  - cbn [List.length] in E. lia.
  - reflexivity.
Qed.

End router_log_facts.

(** ** rmw_context_impl_s.cpp: more on the operations of the context *)

Section entity_id_facts.

Lemma get_next_entity_ids_from (n : nat) :
  forall d : Data,
    0 <= next_entity_id_ d ->
    next_entity_id_ d + Z.of_nat n < 18446744073709551616 ->
    fst (get_next_entity_ids n d)
    = map (fun i => next_entity_id_ d + Z.of_nat i) (seq 0 n)
    /\ snd (get_next_entity_ids n d)
       = set_next_entity_id (next_entity_id_ d + Z.of_nat n) d.
Proof.
  induction n as [|n IH]; intros d H0 Hmax.
  - cbn [get_next_entity_ids fst snd seq map Z.of_nat].
    split; [reflexivity|].
    rewrite Z.add_0_r. destruct d; reflexivity.
  - cbn [get_next_entity_ids get_next_entity_id].
    set (d1 := set_next_entity_id (size_wrap (next_entity_id_ d + 1)) d).
    assert (Hd1 : next_entity_id_ d1 = next_entity_id_ d + 1).
    { unfold d1. cbn. unfold size_wrap. apply Z.mod_small. lia. }
    destruct (IH d1) as [Hl Hd]; [lia | lia |].
    destruct (get_next_entity_ids n d1) as [l d2]. cbn [fst snd] in *.
    split.
    + cbn [seq map]. rewrite Z.add_0_r. f_equal.
      rewrite Hl, <- seq_shift, map_map. apply map_ext. intros i. lia.
    + rewrite Hd, Hd1. unfold d1, set_next_entity_id. cbn. f_equal. lia.
Qed.

(** X12: as long as the counter stays below 2^64, [n] calls of
    [get_next_entity_id] return the [n] consecutive values from the
    counter on, each of them once; only the counter changes. *)
Theorem get_next_entity_ids_distinct :
  forall (n : nat) (d : Data),
    0 <= next_entity_id_ d ->
    next_entity_id_ d + Z.of_nat n < 18446744073709551616 ->
    fst (get_next_entity_ids n d)
    = map (fun i => next_entity_id_ d + Z.of_nat i) (seq 0 n)
    /\ NoDup (fst (get_next_entity_ids n d))
    /\ snd (get_next_entity_ids n d)
       = set_next_entity_id (next_entity_id_ d + Z.of_nat n) d.
Proof.
  intros n d H0 Hmax.
  destruct (get_next_entity_ids_from n d H0 Hmax) as [Hl Hd].
  split; [exact Hl|]. split; [|exact Hd].
  rewrite Hl. apply NoDup_map_NoDup_ForallPairs; [|apply seq_NoDup].
  intros i j _ _ Hij. lia.
Qed.

End entity_id_facts.

Section context_more.

Ltac answer_units env :=
  repeat match goal with
         | |- context [env ?h unit ?c] => destruct (env h unit c)
         end.

(** X13: on a context that is not shut down the callback hands the key
    expression of a put to [parse_put] and the one of a delete to
    [parse_del], on the graph cache of the context, and then triggers the
    guard condition of the context (a failure of which is only logged);
    samples of another kind cause no call.  The record is as before. *)
Theorem graph_sub_data_handler_dispatch :
  forall (env : environment) (past : list event)
         (sample : z_loaned_sample_t) (d : Data),
    is_shutdown_ d = false ->
    exists r : rmw_ret_t,
      run env past (graph_sub_data_handler sample (Some d))
      = (Some d,
         match z_sample_kind sample with
         | Z_SAMPLE_KIND_PUT =>
             Event _ (GraphCache_parse_put (graph_cache_ d) (z_sample_keyexpr sample)) tt
             :: Event _ (rmw_trigger_guard_condition (graph_guard_condition_ d)) r
             :: trigger_warning r
         | Z_SAMPLE_KIND_DELETE =>
             Event _ (GraphCache_parse_del (graph_cache_ d) (z_sample_keyexpr sample)) tt
             :: Event _ (rmw_trigger_guard_condition (graph_guard_condition_ d)) r
             :: trigger_warning r
         | Z_SAMPLE_KIND_other _ => []
         end).
Proof.
  intros env past sample d Hs.
  unfold graph_sub_data_handler. rewrite Hs.
  destruct (z_sample_kind sample) as [| |k]; cbn.
  - answer_units env.
    match goal with
    | |- context [env ?h rmw_ret_t ?c] => exists (env h rmw_ret_t c);
                                            destruct (env h rmw_ret_t c)
    end; cbn; answer_units env; reflexivity.
  - answer_units env.
    match goal with
    | |- context [env ?h rmw_ret_t ?c] => exists (env h rmw_ret_t c);
                                            destruct (env h rmw_ret_t c)
    end; cbn; answer_units env; reflexivity.
  - exists RMW_RET_OK. reflexivity.
Qed.

(** X14: whatever the sample, the record and the environment, the callback
    hands the record back as it was and calls nothing of the transport; for
    a null pointer it logs one error and does nothing else. *)
Theorem graph_sub_data_handler_frame :
  forall (env : environment) (past : list event)
         (sample : z_loaned_sample_t) (data : option Data),
    fst (run env past (graph_sub_data_handler sample data)) = data
    /\ existsb is_transport (snd (run env past (graph_sub_data_handler sample data)))
       = false
    /\ (data = None ->
        snd (run env past (graph_sub_data_handler sample data))
        = [Event _ (RMW_ZENOH_LOG
                      (LOG_ERROR, "rmw_zenoh_cpp",
                       "[graph_sub_data_handler] Invalid data_ptr.")) tt]).
Proof.
  intros env past sample [d|].
  - split; [|split; [|discriminate]];
      unfold graph_sub_data_handler;
      destruct (is_shutdown_ d); cbn; try reflexivity;
      destruct (z_sample_kind sample) as [| |k]; cbn; try reflexivity;
      answer_units env;
      match goal with
      | |- context [env ?h rmw_ret_t ?c] => destruct (env h rmw_ret_t c)
      end; cbn; answer_units env; reflexivity.
  - cbn. answer_units env. repeat split; reflexivity.
Qed.

(** X15: the first [subscribe_to_ros_graph] declares one subscription, on
    the session and the key expression of the context, with the history
    option set.  When that succeeds the context keeps the subscription and
    is initialized; when it fails the error is set, what was declared is
    undeclared again, and the context is not initialized. *)
Theorem subscribe_to_ros_graph_first :
  forall (env : environment) (past : list event) (d : Data),
    is_initialized_ d = false ->
    exists (zr r : z_result_t) (sub : z_owned_subscriber_t),
      let declared :=
        Event _ (zc_liveliness_declare_subscriber (session_ d) (liveliness_str_ d) true)
          (zr, sub) in
      run env past (subscribe_to_ros_graph d)
      = if zr =? Z_OK
        then ((RMW_RET_OK, set_is_initialized true (set_graph_subscriber sub d)),
              [declared])
        else ((RMW_RET_ERROR, set_graph_subscriber None d),
              [declared;
               Event _ (RMW_SET_ERROR_MSG "unable to create zenoh subscription") tt;
               Event _ (z_undeclare_subscriber sub) r]).
Proof.
  intros env past d Hi.
  unfold subscribe_to_ros_graph. rewrite Hi. cbn.
  destruct (env past _ (zc_liveliness_declare_subscriber
                          (session_ d) (liveliness_str_ d) true)) as [zr sub] eqn:E.
  cbn. destruct (zr =? Z_OK) eqn:Ez; cbn.
  - exists zr, Z_OK, sub. cbv zeta. rewrite Ez. reflexivity.
  - answer_units env.
    match goal with
    | |- context [env ?h z_result_t ?c] => exists zr, (env h z_result_t c), sub
    end.
    cbv zeta. rewrite Ez. reflexivity.
Qed.

(** X16: no operation on the record takes [is_shutdown_] back: once it is
    set, it is set after [shutdown], [subscribe_to_ros_graph], the
    callback, the destructor and [get_next_entity_id]. *)
Theorem is_shutdown_is_kept :
  forall (env : environment) (past : list event)
         (sample : z_loaned_sample_t) (d : Data),
    is_shutdown d = true ->
    is_shutdown (snd (fst (run env past (shutdown d)))) = true
    /\ is_shutdown (snd (fst (run env past (subscribe_to_ros_graph d)))) = true
    /\ fst (run env past (graph_sub_data_handler sample (Some d))) = Some d
    /\ is_shutdown (fst (run env past (Data_dtor d))) = true
    /\ is_shutdown (snd (get_next_entity_id d)) = true.
Proof.
  intros env past sample d Hs. unfold is_shutdown in *.
  split; [|split; [|split; [|split]]].
  - unfold shutdown. rewrite Hs. exact Hs.
  - unfold subscribe_to_ros_graph.
    destruct (is_initialized_ d); cbn; [exact Hs|].
    match goal with
    | |- context [negb (fst ?r =? Z_OK)] => destruct (negb (fst r =? Z_OK))
    end; cbn; answer_units env; cbn; exact Hs.
  - unfold graph_sub_data_handler. rewrite Hs. reflexivity.
  - unfold Data_dtor, shutdown. rewrite Hs. exact Hs.
  - exact Hs.
Qed.

(** X17: a [shutdown] of an open context whose [z_close] succeeds
    undeclares the subscription, then drops the shared memory provider if
    there is one, then closes the session, once each and in this order; it
    leaves gravestones in their places, sets [is_shutdown_] and changes
    nothing else. *)
Theorem shutdown_releases_in_order :
  forall (env : environment) (past : list event) (d d' : Data) (tr : list event),
    is_shutdown_ d = false ->
    run env past (shutdown d) = ((RMW_RET_OK, d'), tr) ->
    d' = set_is_shutdown true (released d)
    /\ exists r0, tr = releases d r0 Z_OK.
Proof.
  intros env past d d' tr Hs.
  destruct d as [e s shm l gc gs gg isd nid ini]. cbn in Hs. subst isd.
  unfold shutdown, releases, released. cbn.
  destruct shm as [p|]; cbn;
    answer_units env;
    match goal with
    | |- context [negb (?r =? Z_OK)] => destruct (Z.eqb_spec r Z_OK) as [E|E]
    end;
    cbn; try rewrite E; cbn; answer_units env;
    intros H; inversion H; subst; clear H;
    (split; [reflexivity | eexists; reflexivity]).
Qed.

(** X18: after a [shutdown] that failed, the three objects are gravestones
    although [is_shutdown_] is not set, so a second [shutdown] goes through
    the three releases again, on the gravestones. *)
Theorem shutdown_retry_on_gravestones :
  forall (env : environment) (past : list event) (d d1 : Data) (tr1 : list event),
    is_shutdown_ d = false ->
    run env past (shutdown d) = ((RMW_RET_ERROR, d1), tr1) ->
    d1 = released d
    /\ forall (env' : environment) (past' : list event),
         exists r0 r,
           snd (run env' past' (shutdown d1))
           = releases (released d) r0 r
             ++ (if r =? Z_OK then []
                 else [Event _ (RMW_SET_ERROR_MSG "Error while closing zenoh session") tt])
           /\ graph_subscriber_ (released d) = None
           /\ session_ (released d) = None
           /\ shm_provider_ (released d)
              = option_map (fun _ => None) (shm_provider_ d).
Proof.
  intros env past d d1 tr1 Hs H.
  assert (Hd1 : d1 = released d).
  { revert H.
    destruct d as [e s shm l gc gs gg isd nid ini]. cbn in Hs. subst isd.
    unfold shutdown, released. cbn.
    destruct shm as [p|]; cbn;
      answer_units env;
      match goal with
      | |- context [negb (?r =? Z_OK)] => destruct (Z.eqb_spec r Z_OK) as [E|E]
      end;
      cbn; try rewrite E; cbn; answer_units env;
      intros H; inversion H; subst; reflexivity. }
  split; [exact Hd1|]. subst d1.
  intros env' past'.
  unfold shutdown, releases, released. cbn. rewrite Hs.
  destruct (shm_provider_ d) as [p|] eqn:Hp; cbn; answer_units env';
    match goal with
    | |- context [env' ?h z_result_t (z_undeclare_subscriber ?s)] =>
        exists (env' h z_result_t (z_undeclare_subscriber s))
    end;
    match goal with
    | |- context [negb (?r =? Z_OK)] => exists r; destruct (r =? Z_OK)
    end;
    cbn; answer_units env'; repeat split; reflexivity.
Qed.

End context_more.

(** ** rmw_context_impl_s.cpp: the test for shared memory *)

Section shm_enabled_facts.

Lemma strncmp_prefix (t : string) :
  nul_free t = true ->
  forall s : string,
    strncmp s t (String.length s) = 0
    <-> String.prefix s t = true
        \/ String.prefix (t ++ String NUL "") s = true.
Proof.
  induction t as [|d t IH]; intros Ht s.
  - destruct s as [|c s]; cbn [String.length strncmp String.prefix String.append].
    + tauto.
    + destruct (ascii_dec NUL c) as [<-|Hc].
      * split; [intros _; right; destruct s; reflexivity | reflexivity].
      * split.
        -- intros H. exfalso. apply Hc. symmetry. apply char_code_NUL. lia.
        -- intros [H|H]; discriminate H.
  - cbn [nul_free] in Ht. apply andb_prop in Ht. destruct Ht as [Hd Ht].
    apply negb_true_iff in Hd.
    destruct s as [|c s]; cbn [String.length strncmp String.prefix String.append].
    + tauto.
    + destruct (Ascii.eqb_spec c d) as [->|Hcd].
      * rewrite Hd. rewrite (IH Ht s).
        destruct (ascii_dec d d) as [_|F]; [tauto | contradiction].
      * destruct (ascii_dec c d) as [F|_]; [contradiction|].
        destruct (ascii_dec d c) as [F|_]; [congruence|].
        split.
        -- intros H. exfalso. apply Hcd, char_code_inj. lia.
        -- intros [H|H]; discriminate H.
Qed.

(** X19: shared memory is switched on exactly when the configured text is
    a prefix of ["true"], the empty text among them, or goes on with a NUL
    after ["true"]. *)
Theorem shm_is_enabled_iff_prefix :
  forall shm_enabled : z_owned_string_t,
    shm_is_enabled shm_enabled = true
    <-> String.prefix shm_enabled "true" = true
        \/ String.prefix ("true" ++ String NUL "") shm_enabled = true.
Proof.
  intros s. unfold shm_is_enabled, z_string_data, z_string_len.
  rewrite Z.eqb_eq. apply (strncmp_prefix "true" eq_refl).
Qed.

End shm_enabled_facts.

(** ** rmw_context_impl_s.cpp: runs of the constructor *)

Section run_init_facts.

Lemma run_init_pbind {A B : Type} (env : init_environment) (m : prog A)
    (f : A -> prog B) :
  forall past : list init_event,
    run_init env past (pbind m f)
    = let '(a, tr1) := run_init env past m in
      let '(b, tr2) := run_init env (rev tr1 ++ past) (f a) in
      (b, tr1 ++ tr2).
Proof.
  induction m as [a|R c k IH]; intros past; cbn [pbind run_init].
  - cbn [rev app]. destruct (run_init env past (f a)) as [b tr2]. reflexivity.
  - rewrite IH.
    destruct (run_init env (Init_event R c (env past R c) :: past) (k (env past R c)))
      as [a tr1].
    cbn [rev]. rewrite <- app_assoc. cbn [app].
    destruct (run_init env (rev tr1 ++ Init_event R c (env past R c) :: past) (f a))
      as [b tr2].
    reflexivity.
Qed.

Lemma count_init_app (p : init_event -> bool) (tr1 tr2 : list init_event) :
  count_init p (tr1 ++ tr2) = (count_init p tr1 + count_init p tr2)%nat.
Proof. unfold count_init. rewrite filter_app, length_app. reflexivity. Qed.

Lemma count_init_nil (p : init_event -> bool) : count_init p [] = O.
Proof. reflexivity. Qed.

Lemma count_init_cons (p : init_event -> bool) (e : init_event) (tr : list init_event) :
  count_init p (e :: tr) = ((if p e then 1 else 0) + count_init p tr)%nat.
Proof. unfold count_init. cbn [filter]. destruct (p e); reflexivity. Qed.

Lemma log_all_run (env : init_environment) (l : list log_record) :
  forall past : list init_event,
    fst (run_init env past (log_all l)) = tt
    /\ forall p : init_event -> bool,
         (forall r u, p (Init_event _ (RCUTILS_LOG r) u) = false) ->
         count_init p (snd (run_init env past (log_all l))) = O.
Proof.
  induction l as [|r l IH]; intros past; cbn [log_all pbind ask run_init].
  - split; [reflexivity | intros; reflexivity].
  - specialize (IH (Init_event unit (RCUTILS_LOG r) (env past unit (RCUTILS_LOG r)) :: past)).
    destruct (run_init env _ (log_all l)) as [[] tr]. cbn [fst snd] in *.
    split; [reflexivity|]. intros p Hp.
    rewrite count_init_cons, Hp. apply (proj2 IH p Hp).
Qed.

Lemma router_check_run (env : init_environment) (session : z_owned_session_t)
    (past : list init_event) :
  run_init env past (router_check session)
  = (fst (zenoh_router_check (env past _ (session_routers session))),
     Init_event _ (session_routers session) (env past _ (session_routers session))
     :: snd (run_init env
               (Init_event _ (session_routers session)
                  (env past _ (session_routers session)) :: past)
               (log_all (snd (zenoh_router_check
                                (env past _ (session_routers session))))))).
Proof.
  unfold router_check. cbn [pbind ask run_init].
  rewrite run_init_pbind.
  destruct (run_init env _ (log_all _)) as [[] trl].
  cbn [run_init snd]. rewrite List.app_nil_r. reflexivity.
Qed.

Lemma router_check_loop_run (env : init_environment) (session : z_owned_session_t)
    (n : nat) :
  forall past : list init_event,
    loop_post n (fst (run_init env past (router_check_loop session n)))
      (snd (run_init env past (router_check_loop session n))).
Proof.
  unfold loop_post.
  induction n as [|n IH]; intros past; cbn [router_check_loop].
  - cbn. repeat split; try reflexivity; try discriminate; lia.
  - rewrite run_init_pbind, router_check_run.
    set (routers := env past _ (session_routers session)).
    set (past1 := Init_event _ (session_routers session) routers :: past).
    destruct (log_all_run env (snd (zenoh_router_check routers)) past1) as [_ Hlog].
    set (trl := snd (run_init env past1 (log_all (snd (zenoh_router_check routers))))) in *.
    cbn [pbind ask run_init].
    match goal with
    | |- context [run_init env ?h (match ?r with RMW_RET_OK => _ | RMW_RET_ERROR => _ end)] =>
        set (past2 := h)
    end.
    destruct (fst (zenoh_router_check routers)).
    + cbn [run_init fst snd app].
      repeat (rewrite count_init_cons || rewrite count_init_app).
      rewrite (Hlog is_router_check), (Hlog is_sleep) by reflexivity.
      split; [cbn; lia|]. split; [discriminate|]. split; [cbn; lia|].
      split; [reflexivity|].
      intros p (Hp1 & Hp2 & Hp3).
      repeat (rewrite count_init_cons || rewrite count_init_app).
      rewrite (Hlog p Hp1), Hp2, Hp3. reflexivity.
    + specialize (IH past2).
      destruct (run_init env past2 (router_check_loop session n)) as [ret tr].
      cbn [fst snd app] in *. destruct IH as (IH1 & IH2 & IH3 & IH4 & IH5).
      repeat (rewrite count_init_cons || rewrite count_init_app).
      rewrite (Hlog is_router_check), (Hlog is_sleep) by reflexivity.
      split; [cbn; lia|]. split; [|split; [cbn; lia|split; [cbn; lia|]]].
      * intros Hret. rewrite (IH2 Hret). reflexivity.
      * intros p Hp. pose proof Hp as (Hp1 & Hp2 & Hp3).
        repeat (rewrite count_init_cons || rewrite count_init_app).
        rewrite (Hlog p Hp1), Hp2, Hp3, (IH5 p Hp). reflexivity.
Qed.

End run_init_facts.

Section ctor_facts.

Variable env : init_environment.
Variable enclave : string.

Lemma ctor_holds_Ret (pre : list init_event) (out : outcome) :
  ctor_post enclave (out, pre) -> ctor_holds env enclave pre (Ret out).
Proof. intros H past. cbn [run_init fst snd]. rewrite List.app_nil_r. exact H. Qed.

Lemma ctor_holds_Vis {R : Type} (pre : list init_event) (c : init_call R)
    (k : R -> prog outcome) :
  (forall r, ctor_holds env enclave (pre ++ [Init_event _ c r]) (k r)) ->
  ctor_holds env enclave pre (Vis c k).
Proof.
  intros H past. cbn [run_init].
  specialize (H (env past R c) (Init_event R c (env past R c) :: past)).
  destruct (run_init env _ (k (env past R c))) as [out tr].
  cbn [fst snd] in *. rewrite <- app_assoc in H. exact H.
Qed.

Lemma ctor_holds_loop (pre : list init_event) (session : z_owned_session_t)
    (n : nat) (f : rmw_ret_t -> prog outcome) :
  (forall ret trl, loop_post n ret trl -> ctor_holds env enclave (pre ++ trl) (f ret)) ->
  ctor_holds env enclave pre (pbind (router_check_loop session n) f).
Proof.
  intros H past. rewrite run_init_pbind.
  pose proof (router_check_loop_run env session n past) as Hl.
  destruct (run_init env past (router_check_loop session n)) as [ret trl].
  cbn [fst snd] in Hl.
  specialize (H ret trl Hl (rev trl ++ past)).
  destruct (run_init env (rev trl ++ past) (f ret)) as [out tr].
  cbn [fst snd] in *. rewrite <- app_assoc in H. exact H.
Qed.

Ltac ask_next := cbn [pbind ask lift bind perform]; apply ctor_holds_Vis.

Ltac counts :=
  repeat (rewrite count_init_cons || rewrite count_init_app
          || rewrite count_init_nil).

Lemma overlooked (n : nat) (ret : rmw_ret_t) (trl : list init_event) :
  loop_post n ret trl ->
  count_init is_open_ok trl = O
  /\ count_init is_session_close trl = O
  /\ count_init is_provider_drop trl = O
  /\ count_init is_provider_ok trl = O
  /\ count_init is_string_drop trl = O
  /\ count_init is_config_read trl = O
  /\ count_init is_subscription trl = O
  /\ forall a, count_init (is_attempts_answer a) trl = O.
Proof.
  intros (_ & _ & _ & _ & H).
  repeat split; try intros a; apply H; repeat split; intros; reflexivity.
Qed.

Ltac use_eqs :=
  repeat match goal with
         | H : (_ =? _) = _ |- _ => rewrite H
         end.

(** The conjunct of [ctor_post] on the answer to
    [zenoh_router_check_attempts]. *)
Ltac attempts_goal :=
  let a := fresh "a" in
  let Ha := fresh "Ha" in
  intros a Ha;
  repeat (rewrite count_init_cons in Ha || rewrite count_init_app in Ha
          || rewrite count_init_nil in Ha);
  repeat match goal with
         | O : forall a, count_init (is_attempts_answer a) _ = _ |- _ =>
             rewrite (O a) in Ha
         end;
  cbn in Ha;
  destruct a as [m|]; cbn in Ha; try lia;
  try match type of Ha with
      | context [(?n =? m)%N] =>
          destruct (N.eqb_spec n m); [subst | cbn in Ha; lia]
      end;
  (split;
   [counts; cbn [is_router_check attempts_allowed]; lia
   | let Heq := fresh "Heq" in
     intros Heq;
     first [ eexists; reflexivity
           | exfalso; try (injection Heq as ->); try discriminate Heq;
             cbn in *; lia ]]).

(** The conjunct of [ctor_post] on the object that was constructed. *)
Ltac object_goal :=
  let d := fresh "d" in
  let Hd := fresh "Hd" in
  intros d Hd; try discriminate Hd; injection Hd as <-;
  counts; cbn; use_eqs; cbn; repeat split; lia.

Ltac leaf :=
  apply ctor_holds_Ret; unfold ctor_post; cbn [fst snd];
  repeat match goal with
         | H : loop_post _ _ _ |- _ =>
             let O1 := fresh "O" in
             pose proof (overlooked _ _ _ H) as O1;
             destruct O1 as (?O & ?O & ?O & ?O & ?O & ?O & ?O & ?O);
             destruct H as (?L & ?L & ?L & ?L & _)
         end;
  repeat match goal with
         | H : ?x = ?x -> _ |- _ => specialize (H eq_refl)
         end;
  split; [counts; cbn; use_eqs; cbn; lia|];
  split; [counts; cbn; use_eqs; cbn; lia|];
  split; [counts; cbn; use_eqs; cbn; lia|];
  split; [counts; cbn; lia|];
  split; [counts; cbn; lia|];
  split; [counts; cbn; lia|];
  split; [attempts_goal | object_goal].

(** The constructor from [make_guard_condition] on. *)
Ltac tail_data fin :=
  cbn [pbind];
  ask_next; intros guard_condition;
  unfold subscribe_to_ros_graph, Data_ctor; cbn [is_initialized_];
  ask_next; intros [sr sub]; cbn [fst snd];
  (let Es := fresh "Es" in
   destruct (sr =? Z_OK) eqn:Es; cbn [negb];
   [ cbn [pbind ask lift bind perform fst snd];
     ask_next; intros []; fin
   | ask_next; intros []; cbn [z_move]; ask_next; intros ru;
     cbn [pbind ask lift bind perform fst snd];
     ask_next; intros [];
     unfold Data_dtor, shutdown; cbn;
     ask_next; intros ru2;
     repeat (ask_next; intros ?);
     repeat match goal with u : unit |- _ => destruct u end;
     match goal with
     | |- context [negb (?r =? Z_OK)] =>
         let Ec := fresh "Ec" in destruct (r =? Z_OK) eqn:Ec
     end;
     cbn;
     repeat (ask_next; intros ?);
     repeat match goal with u : unit |- _ => destruct u end;
     fin ]).

(** The constructor from [z_info_zid] on. *)
Ltac tail fin :=
  ask_next; intros zid; ask_next; intros graph_cache; ask_next; intros liveliness_str;
  match goal with
  | |- context [shm_is_enabled ?s] => destruct (shm_is_enabled s)
  end;
  [ ask_next; intros []; ask_next; intros layout; ask_next; intros [pr provider];
    cbn [fst snd];
    let Ep := fresh "Ep" in
    destruct (pr =? Z_OK) eqn:Ep; cbn [negb];
    [ tail_data fin
    | ask_next; intros []; cbn [pbind];
      ask_next; intros rc; ask_next; intros []; fin ]
  | tail_data fin ].

Lemma ctor_run (domain_id : N) :
  ctor_holds env enclave [] (rmw_context_impl_s_ctor domain_id enclave).
Proof.
  unfold rmw_context_impl_s_ctor.
  ask_next. intros [ret config]. cbn [fst snd]. destruct ret.
  2: { apply ctor_holds_Ret. unfold ctor_post. cbn.
       repeat split; try lia; try discriminate. }
  ask_next. intros shm_enabled.
  ask_next. intros [zr session]. cbn [fst snd].
  destruct (zr =? Z_OK) eqn:Ez; cbn [negb].
  2: { ask_next. intros []. ask_next. intros [].
       apply ctor_holds_Ret. unfold ctor_post. cbn [fst snd]. counts.
       cbn. rewrite Ez. cbn. repeat split; try lia; try discriminate. }
  apply ctor_holds_Vis. intros [n|].
  - apply ctor_holds_loop. intros ret trl Hl. destruct ret.
    + tail idtac.
      * leaf.
      * leaf.
      * leaf.
      * leaf.
      * leaf.
      * leaf.
      * leaf.
    + ask_next. intros r. ask_next. intros [].
      leaf.
  - cbn [pbind]. tail leaf.
Qed.

End ctor_facts.

(** ** rmw_context_impl_s.cpp: what every run of the constructor does *)

Section ctor_properties.

Variable env : init_environment.
Variable past : list init_event.
Variable domain_id : N.
Variable enclave : string.

(** X20.  [rmw_context_impl_s::rmw_context_impl_s]: when the configuration
    answers zero connection attempts, the constructor throws and never
    checks for a router. *)
Theorem ctor_zero_attempts_throws :
  (1 <= count_init (is_attempts_answer (Some 0%N))
          (snd (run_init env past (rmw_context_impl_s_ctor domain_id enclave))))%nat ->
  (exists what,
     fst (run_init env past (rmw_context_impl_s_ctor domain_id enclave)) = Thrown what)
  /\ count_init is_router_check
       (snd (run_init env past (rmw_context_impl_s_ctor domain_id enclave))) = O.
Proof.
  intros H.
  destruct (ctor_run env enclave domain_id past) as (_ & _ & _ & _ & _ & _ & Ha & _).
  cbn [fst snd app] in Ha. destruct (Ha _ H) as [Hc Ht].
  split; [exact (Ht eq_refl)|]. cbn [attempts_allowed] in Hc.
  change (N.to_nat 0) with O in Hc. apply Nat.le_0_r. exact Hc.
Qed.

(** X21.  [rmw_context_impl_s::rmw_context_impl_s]: the session is opened
    at most once; it is closed exactly once when the constructor throws
    after having opened it, and it is left open in an object that was
    constructed. *)
Theorem ctor_closes_session_when_thrown :
  (count_init is_open_ok
     (snd (run_init env past (rmw_context_impl_s_ctor domain_id enclave))) <= 1)%nat
  /\ count_init is_session_close
       (snd (run_init env past (rmw_context_impl_s_ctor domain_id enclave)))
     = match fst (run_init env past (rmw_context_impl_s_ctor domain_id enclave)) with
       | Constructed _ => O
       | Thrown _ =>
           count_init is_open_ok
             (snd (run_init env past (rmw_context_impl_s_ctor domain_id enclave)))
       end.
Proof.
  destruct (ctor_run env enclave domain_id past) as (H1 & H2 & _).
  cbn [fst snd app] in H1, H2. split; assumption.
Qed.

(** X22.  [rmw_context_impl_s::rmw_context_impl_s]: the text read at
    [Z_CONFIG_SHARED_MEMORY_KEY] is dropped once on every path that read
    it, and a shared memory provider that was created is dropped when the
    constructor throws and kept in an object that was constructed. *)
Theorem ctor_drops_text_and_provider :
  count_init is_string_drop
    (snd (run_init env past (rmw_context_impl_s_ctor domain_id enclave)))
  = count_init is_config_read
      (snd (run_init env past (rmw_context_impl_s_ctor domain_id enclave)))
  /\ (count_init is_config_read
        (snd (run_init env past (rmw_context_impl_s_ctor domain_id enclave))) <= 1)%nat
  /\ count_init is_provider_drop
       (snd (run_init env past (rmw_context_impl_s_ctor domain_id enclave)))
     = match fst (run_init env past (rmw_context_impl_s_ctor domain_id enclave)) with
       | Constructed _ => O
       | Thrown _ =>
           count_init is_provider_ok
             (snd (run_init env past (rmw_context_impl_s_ctor domain_id enclave)))
       end.
Proof.
  destruct (ctor_run env enclave domain_id past) as (_ & _ & H3 & H4 & H5 & _).
  cbn [fst snd app] in H3, H4, H5. repeat split; assumption.
Qed.

(** X23.  [rmw_context_impl_s::rmw_context_impl_s]: the constructor checks
    for a router at most as many times as the configured number of
    attempts, and waits once after every check. *)
Theorem ctor_router_checks_bounded (a : option N) :
  (1 <= count_init (is_attempts_answer a)
          (snd (run_init env past (rmw_context_impl_s_ctor domain_id enclave))))%nat ->
  (count_init is_router_check
     (snd (run_init env past (rmw_context_impl_s_ctor domain_id enclave)))
   <= attempts_allowed a)%nat
  /\ count_init is_sleep
       (snd (run_init env past (rmw_context_impl_s_ctor domain_id enclave)))
     = count_init is_router_check
         (snd (run_init env past (rmw_context_impl_s_ctor domain_id enclave))).
Proof.
  intros H.
  destruct (ctor_run env enclave domain_id past) as (_ & _ & _ & _ & _ & Hs & Ha & _).
  cbn [fst snd app] in Hs, Ha. split; [exact (proj1 (Ha _ H)) | exact Hs].
Qed.

(** X24.  [rmw_context_impl_s::rmw_context_impl_s]: an object that was
    constructed is initialized and not shut down, counts its entities from
    zero, keeps the enclave it was given, and its construction opened one
    session and declared one liveliness subscriber. *)
Theorem ctor_constructed_state (d : Data) :
  fst (run_init env past (rmw_context_impl_s_ctor domain_id enclave)) = Constructed d ->
  is_initialized_ d = true
  /\ is_shutdown_ d = false
  /\ next_entity_id_ d = 0
  /\ enclave_ d = enclave
  /\ count_init is_open_ok
       (snd (run_init env past (rmw_context_impl_s_ctor domain_id enclave))) = 1%nat
  /\ count_init is_subscription
       (snd (run_init env past (rmw_context_impl_s_ctor domain_id enclave))) = 1%nat.
Proof.
  intros H.
  destruct (ctor_run env enclave domain_id past) as (_ & _ & _ & _ & _ & _ & _ & Hd).
  cbn [fst snd app] in Hd. exact (Hd d H).
Qed.

End ctor_properties.

(** * The properties at concrete inputs *)




(** X6 at the value ["42x"] with its NUL. *)
Lemma get_int64_trailing_characters_witness :
  get_int64_from_attachment bytes_as_text nonempty_text
    [(terminated "sequence_number", terminated "42x")] "sequence_number"
  = Returns (-1) (found_output "sequence_number" "42x").
Proof.
  apply (get_int64_trailing_characters bytes_as_text nonempty_text _
           "sequence_number" (String NUL "") "x" 42).
  - reflexivity.
  - reflexivity.
  - discriminate.
Defined.

(** X7 at the value 42, NUL, 99. *)
Lemma get_int64_ignores_after_nul_witness :
  get_int64_from_attachment bytes_as_text nonempty_text
    [(terminated "sequence_number",
      list_byte_of_string ("42" ++ String NUL "99"))]
    "sequence_number"
  = Returns 42 (found_output "sequence_number" "42").
Proof.
  apply (proj1 (get_int64_ignores_after_nul bytes_as_text nonempty_text
                  [(terminated "sequence_number",
                    list_byte_of_string ("42" ++ String NUL "99"))]
                  "sequence_number" "99" 42
                  (found_output "sequence_number" "42") eq_refl
                  ltac:(discriminate)
                  ltac:(unfold INT64_MIN, INT64_MAX; lia))).
Defined.

(** X8 at the values [" 42"] and [" +42"] with their NUL. *)
Lemma get_int64_leading_space_and_plus_witness :
  get_int64_from_attachment bytes_as_text nonempty_text
    [(terminated "sequence_number", terminated " 42")] "sequence_number"
  = Returns 42 (found_output "sequence_number" " 42")
  /\ get_int64_from_attachment bytes_as_text nonempty_text
       [(terminated "sequence_number", terminated " +42")] "sequence_number"
     = Returns 42 (found_output "sequence_number" " +42").
Proof.
  assert (Hn : 42 <> 0) by discriminate.
  assert (Hr : INT64_MIN <= 42 <= INT64_MAX) by (unfold INT64_MIN, INT64_MAX; lia).
  split.
  - apply (proj1 (get_int64_leading_space_and_plus bytes_as_text nonempty_text
                    [(terminated "sequence_number", terminated " 42")]
                    "sequence_number" " " "" 42
                    (found_output "sequence_number" " 42") eq_refl Hn Hr)
             (String " " (String "4" (String "2" (String NUL ""))))).
    + reflexivity.
    + reflexivity.
    + cbn. lia.
  - apply (proj2 (get_int64_leading_space_and_plus bytes_as_text nonempty_text
                    [(terminated "sequence_number", terminated " +42")]
                    "sequence_number" " " "" 42
                    (found_output "sequence_number" " +42") eq_refl Hn Hr)
             (String " " (String "+" (String "4" (String "2" (String NUL "")))))).
    + reflexivity.
    + lia.
    + reflexivity.
    + cbn. lia.
Defined.

(** X9 at the identity 01 00 ab 00 ... 00. *)
Lemma ZidToStr_text_witness :
  String.length (ZidToStr (mk_zid ([x01; x00; xab] ++ repeat x00 13))) = 6%nat
  /\ forallb is_lower_hex
       (list_ascii_of_string (ZidToStr (mk_zid ([x01; x00; xab] ++ repeat x00 13))))
     = true.
Proof.
  destruct (ZidToStr_text (mk_zid ([x01; x00; xab] ++ repeat x00 13)) eq_refl)
    as (H1 & _ & H3).
  exact (conj H1 H3).
Defined.

(** X10 at the identity 01 00 ab 00 ... 00. *)
Lemma ZidToStr_read_back_witness :
  zid_of_text (ZidToStr (mk_zid ([x01; x00; xab] ++ repeat x00 13)))
  = [x01; x00; xab] ++ repeat x00 13.
Proof.
  exact (proj1 (ZidToStr_read_back
                  (mk_zid ([x01; x00; xab] ++ repeat x00 13)) eq_refl)).
Defined.

(** X11 at a session with two routers. *)
Lemma zenoh_router_check_log_witness :
  snd (zenoh_router_check
         [mk_zid (x0f :: repeat x00 15); mk_zid (x10 :: repeat x00 15)])
  = [(LOG_INFO, "ZenouRouterCheck",
      "A Zenoh router connected to the session with id '0f'");
     (LOG_INFO, "ZenouRouterCheck",
      "A Zenoh router connected to the session with id '10'");
     (LOG_INFO, "ZenouRouterCheck",
      "There are 2 Zenoh routers connected to the session")].
Proof.
  apply (zenoh_router_check_log
           [mk_zid (x0f :: repeat x00 15); mk_zid (x10 :: repeat x00 15)]).
  unfold INT_MAX. cbn. lia.
Defined.

(** X12 at three calls on [subscribed_Data]. *)
Lemma get_next_entity_ids_distinct_witness :
  fst (get_next_entity_ids 3 subscribed_Data) = [0; 1; 2]
  /\ NoDup (fst (get_next_entity_ids 3 subscribed_Data)).
Proof.
  assert (H0 : 0 <= next_entity_id_ subscribed_Data) by (cbn; lia).
  assert (H1 : next_entity_id_ subscribed_Data + Z.of_nat 3 < 18446744073709551616)
    by (cbn; lia).
  destruct (get_next_entity_ids_distinct 3 subscribed_Data H0 H1) as (Ha & Hb & _).
  exact (conj Ha Hb).
Defined.

(** X13 at a put sample that arrives for [subscribed_Data]. *)
Lemma graph_sub_data_handler_dispatch_witness :
  exists r : rmw_ret_t,
    run all_ok []
      (graph_sub_data_handler (mk_sample "@ros2_lv/0/x" Z_SAMPLE_KIND_PUT)
         (Some subscribed_Data))
    = (Some subscribed_Data,
       Event _ (GraphCache_parse_put 3 "@ros2_lv/0/x") tt
       :: Event _ (rmw_trigger_guard_condition 4) r
       :: trigger_warning r).
Proof.
  exact (graph_sub_data_handler_dispatch all_ok []
           (mk_sample "@ros2_lv/0/x" Z_SAMPLE_KIND_PUT) subscribed_Data eq_refl).
Defined.

(** X15 at the context [fresh_Data]. *)
Lemma subscribe_to_ros_graph_first_witness :
  exists (zr r : z_result_t) (sub : z_owned_subscriber_t),
    run all_ok [] (subscribe_to_ros_graph fresh_Data)
    = if zr =? Z_OK
      then ((RMW_RET_OK, set_is_initialized true (set_graph_subscriber sub fresh_Data)),
            [Event _ (zc_liveliness_declare_subscriber (Some 1%nat) "@ros2_lv/0/**" true)
               (zr, sub)])
      else ((RMW_RET_ERROR, set_graph_subscriber None fresh_Data),
            [Event _ (zc_liveliness_declare_subscriber (Some 1%nat) "@ros2_lv/0/**" true)
               (zr, sub);
             Event _ (RMW_SET_ERROR_MSG "unable to create zenoh subscription") tt;
             Event _ (z_undeclare_subscriber sub) r]).
Proof.
  exact (subscribe_to_ros_graph_first all_ok [] fresh_Data eq_refl).
Defined.

(** X16 at the context [closed_Data]. *)
Lemma is_shutdown_is_kept_witness :
  is_shutdown (snd (fst (run all_ok [] (shutdown closed_Data)))) = true
  /\ is_shutdown (snd (fst (run all_ok [] (subscribe_to_ros_graph closed_Data)))) = true
  /\ is_shutdown (fst (run all_ok [] (Data_dtor closed_Data))) = true
  /\ is_shutdown (snd (get_next_entity_id closed_Data)) = true.
Proof.
  destruct (is_shutdown_is_kept all_ok []
              (mk_sample "@ros2_lv/0/x" Z_SAMPLE_KIND_PUT) closed_Data eq_refl)
    as (H1 & H2 & _ & H4 & H5).
  exact (conj H1 (conj H2 (conj H4 H5))).
Defined.

(** X17 at the context [subscribed_Data], shut down in [all_ok]. *)
Lemma shutdown_releases_in_order_witness :
  closed_Data = set_is_shutdown true (released subscribed_Data)
  /\ exists r0,
       snd (run all_ok [] (shutdown subscribed_Data))
       = releases subscribed_Data r0 Z_OK.
Proof.
  exact (shutdown_releases_in_order all_ok [] subscribed_Data closed_Data
           (snd (run all_ok [] (shutdown subscribed_Data))) eq_refl eq_refl).
Defined.

(** X18 at the context [subscribed_Data], shut down in [close_fails]. *)
Lemma shutdown_retry_on_gravestones_witness :
  snd (fst (run close_fails [] (shutdown subscribed_Data))) = released subscribed_Data.
Proof.
  exact (proj1 (shutdown_retry_on_gravestones close_fails [] subscribed_Data
                  (snd (fst (run close_fails [] (shutdown subscribed_Data))))
                  (snd (run close_fails [] (shutdown subscribed_Data)))
                  eq_refl eq_refl)).
Defined.

(** X20 in an environment that configures zero attempts. *)
Lemma ctor_zero_attempts_throws_witness :
  (exists what,
     fst (run_init (answers (Some 0%N) [] "false") []
            (rmw_context_impl_s_ctor 0 "/")) = Thrown what)
  /\ count_init is_router_check
       (snd (run_init (answers (Some 0%N) [] "false") []
               (rmw_context_impl_s_ctor 0 "/"))) = O.
Proof.
  apply (ctor_zero_attempts_throws (answers (Some 0%N) [] "false") [] 0%N "/").
  vm_compute. apply le_n.
Defined.

(** X23 in an environment that configures three attempts and has a router
    that answers. *)
Lemma ctor_router_checks_bounded_witness :
  (count_init is_router_check
     (snd (run_init (answers (Some 3%N) [mk_zid (x0f :: repeat x00 15)] "false") []
             (rmw_context_impl_s_ctor 0 "/"))) <= 3)%nat
  /\ count_init is_sleep
       (snd (run_init (answers (Some 3%N) [mk_zid (x0f :: repeat x00 15)] "false") []
               (rmw_context_impl_s_ctor 0 "/")))
     = count_init is_router_check
         (snd (run_init (answers (Some 3%N) [mk_zid (x0f :: repeat x00 15)] "false") []
                 (rmw_context_impl_s_ctor 0 "/"))).
Proof.
  apply (ctor_router_checks_bounded
           (answers (Some 3%N) [mk_zid (x0f :: repeat x00 15)] "false") [] 0%N "/"
           (Some 3%N)).
  vm_compute. apply le_n.
Defined.

(** X24 in an environment with shared memory and no router check. *)
Lemma ctor_constructed_state_witness :
  fst (run_init (answers None [] "true") [] (rmw_context_impl_s_ctor 0 "/"))
  = Constructed
      (set_is_initialized true
         (set_graph_subscriber (Some 7%nat)
            (Data_ctor "/" (Some 2%nat) (Some (Some 5%nat)) "@ros2_lv/0/**" 3 6)))
  /\ count_init is_open_ok
       (snd (run_init (answers None [] "true") [] (rmw_context_impl_s_ctor 0 "/")))
     = 1%nat
  /\ count_init is_subscription
       (snd (run_init (answers None [] "true") [] (rmw_context_impl_s_ctor 0 "/")))
     = 1%nat.
Proof.
  assert (H : fst (run_init (answers None [] "true") []
                     (rmw_context_impl_s_ctor 0 "/"))
              = Constructed
                  (set_is_initialized true
                     (set_graph_subscriber (Some 7%nat)
                        (Data_ctor "/" (Some 2%nat) (Some (Some 5%nat))
                           "@ros2_lv/0/**" 3 6))))
    by reflexivity.
  split; [exact H|].
  destruct (ctor_constructed_state (answers None [] "true") [] 0%N "/" _ H)
    as (_ & _ & _ & _ & H5 & H6).
  exact (conj H5 H6).
Defined.

(** X19 at the empty text, which switches shared memory on. *)
Lemma shm_is_enabled_iff_prefix_witness :
  shm_is_enabled "" = true.
Proof.
  exact (proj2 (shm_is_enabled_iff_prefix "") (or_introl eq_refl)).
Defined.
